(** * DataDiver: the crawl engine of [datadiver.py], embedded and verified

    The development follows the source file top to bottom:
    - [Text]: the string primitives of Python the code relies on
      ([str.lower], [str.rstrip], [str.strip], the [in] substring test);
    - [UrlParse]: the part of [urllib.parse.urlsplit] behind [get_domain];
    - [Url]: [normalize_url], [get_domain], [sanitize_url], [is_valid_link];
    - [Fetch]: [fetch_page] over the HTTP and HTML capabilities it consumes;
    - [Engine]: the batch loop of [crawl_site] as a transition system whose
      control points are the source lines of the loop, and [crawl];
    - [Sites]: small sites to run the engine on.
    The modules [TextFacts], [UrlFacts], [FetchFacts] and [EngineFacts] hold
    the proofs.

    Strings are Rocq [string]s, i.e. sequences of 8-bit characters; case
    conversion and whitespace are the ASCII ones, every other character is
    left alone.  Python integers are [Z]. *)

From Stdlib Require Import ZArith String Ascii List Bool Lia.
From Stdlib Require Import DecimalString DecimalNat.
From stdpp Require Import base gmap sets list strings sorting.

Local Open Scope string_scope.
Local Open Scope Z_scope.

(* ===================================================================== *)
(** ** Python string primitives *)
(* ===================================================================== *)

Module Text.

(** [c in chars] for a single character. *)
Fixpoint char_in (c : ascii) (chars : string) : bool :=
  match chars with
  | EmptyString => false
  | String d rest => Ascii.eqb c d || char_in c rest
  end.

(** [str.lower] on one character: 'A'..'Z' are moved to 'a'..'z'. *)
Definition lower_char (c : ascii) : ascii :=
  let n := nat_of_ascii c in
  if (65 <=? n)%nat && (n <=? 90)%nat then ascii_of_nat (n + 32) else c.

(** [s.lower()]. *)
Fixpoint lower (s : string) : string :=
  match s with
  | EmptyString => EmptyString
  | String c rest => String (lower_char c) (lower rest)
  end.

(** [s.rstrip(chars)]: the longest suffix made of characters of [chars] is
    dropped.  A character is kept as soon as something is kept after it. *)
Fixpoint rstrip (chars : string) (s : string) : string :=
  match s with
  | EmptyString => EmptyString
  | String c rest =>
      match rstrip chars rest with
      | EmptyString => if char_in c chars then EmptyString else String c EmptyString
      | kept => String c kept
      end
  end.

(** [s.lstrip(chars)]. *)
Fixpoint lstrip (chars : string) (s : string) : string :=
  match s with
  | EmptyString => EmptyString
  | String c rest => if char_in c chars then lstrip chars rest else s
  end.

(** ASCII whitespace, the characters [str.strip()] removes:
    tab, newline, vertical tab, form feed, carriage return, the four
    separators 0x1c..0x1f and the space. *)
Definition whitespace : string :=
  String (ascii_of_nat 9) (String (ascii_of_nat 10) (String (ascii_of_nat 11)
  (String (ascii_of_nat 12) (String (ascii_of_nat 13) (String (ascii_of_nat 28)
  (String (ascii_of_nat 29) (String (ascii_of_nat 30) (String (ascii_of_nat 31)
  (String (ascii_of_nat 32) EmptyString))))))))).

(** [s.strip()]. *)
Definition strip (s : string) : string := rstrip whitespace (lstrip whitespace s).

(** [needle in hay]: [needle] occurs in [hay] as a contiguous substring. *)
Fixpoint str_in (needle hay : string) : bool :=
  String.prefix needle hay ||
  match hay with
  | EmptyString => false
  | String _ rest => str_in needle rest
  end.

(** [s.endswith("/")]. *)
Fixpoint ends_with_slash (s : string) : bool :=
  match s with
  | EmptyString => false
  | String c EmptyString => Ascii.eqb c "/"
  | String _ rest => ends_with_slash rest
  end.

(** ["/" * n]. *)
Fixpoint slashes (n : nat) : string :=
  match n with
  | O => EmptyString
  | S k => String "/" (slashes k)
  end.

(** [s[:n]] and [s[n:]]. *)
Fixpoint take (n : nat) (s : string) : string :=
  match n, s with
  | S k, String c rest => String c (take k rest)
  | _, _ => EmptyString
  end.

Fixpoint drop (n : nat) (s : string) : string :=
  match n, s with
  | S k, String _ rest => drop k rest
  | _, _ => s
  end.

(** [all(p(c) for c in s)], and the characters of [s] that satisfy [p]. *)
Fixpoint all_chars (p : ascii -> bool) (s : string) : bool :=
  match s with
  | EmptyString => true
  | String c rest => p c && all_chars p rest
  end.

Fixpoint filter_chars (p : ascii -> bool) (s : string) : string :=
  match s with
  | EmptyString => EmptyString
  | String c rest => if p c then String c (filter_chars p rest) else filter_chars p rest
  end.

(** The longest prefix of [s] free of the characters of [stops]. *)
Fixpoint take_until (stops : string) (s : string) : string :=
  match s with
  | EmptyString => EmptyString
  | String c rest => if char_in c stops then EmptyString else String c (take_until stops rest)
  end.

End Text.

(* ===================================================================== *)
(** ** [urllib.parse]: the scheme and network location of a URL *)
(* ===================================================================== *)

(** Python exceptions, as far as the code tells them apart: the handlers of
    [fetch_page] are [except httpx.HTTPError] and [except Exception]. *)
Inductive exn : Type :=
| HTTPError
| ValueError
| OtherException.

Inductive result (A : Type) : Type :=
| Ok (a : A)
| Raise (e : exn).
Arguments Ok {A} a.
Arguments Raise {A} e.

Definition bind {A B : Type} (m : result A) (k : A -> result B) : result B :=
  match m with
  | Ok a => k a
  | Raise e => Raise e
  end.

Notation "'try!' x := m 'in' k" := (bind m (fun x => k))
  (at level 10, x name, m at level 100, k at level 200).

Module UrlParse.
Import Text.

Definition scheme_chars : string :=
  "abcdefghijklmnopqrstuvwxyzABCDEFGHIJKLMNOPQRSTUVWXYZ0123456789+-.".

Definition ascii_letters : string :=
  "abcdefghijklmnopqrstuvwxyzABCDEFGHIJKLMNOPQRSTUVWXYZ".

(** The C0 control characters and the space, stripped from the front. *)
Definition c0_control_or_space (c : ascii) : bool := (nat_of_ascii c <=? 32)%nat.

Fixpoint lstrip_c0 (s : string) : string :=
  match s with
  | EmptyString => EmptyString
  | String c rest => if c0_control_or_space c then lstrip_c0 rest else s
  end.

(** Tab, carriage return and newline are removed wherever they stand. *)
Definition unsafe_byte (c : ascii) : bool :=
  let n := nat_of_ascii c in (n =? 9)%nat || (n =? 13)%nat || (n =? 10)%nat.

Record SplitResult : Type := mkSplit { scheme : string; netloc : string }.

(** [urlsplit(url)], its [scheme] and [netloc] fields, after CPython:
    a prefix up to the first ':' is a scheme when it starts with a letter and
    stays within [scheme_chars]; a remainder that starts with "//" has a
    network location running up to the first of '/', '?', '#'; a network
    location with one square bracket but not the other raises ValueError. *)
Definition urlsplit (url0 : string) : result SplitResult :=
  let url := filter_chars (fun c => negb (unsafe_byte c)) (lstrip_c0 url0) in
  let '(sch, url) :=
    match index 0 ":" url with
    | Some (S i) =>
        if char_in (match url with String c _ => c | EmptyString => "000"%char end)
                   ascii_letters
           && all_chars (fun c => char_in c scheme_chars) (take (S i) url)
        then (lower (take (S i) url), drop (S (S i)) url)
        else (EmptyString, url)
    | _ => (EmptyString, url)
    end in
  if String.eqb (take 2 url) "//" then
    let loc := take_until "/?#" (drop 2 url) in
    if (str_in "[" loc && negb (str_in "]" loc))
       || (str_in "]" loc && negb (str_in "[" loc))
    then Raise ValueError
    else Ok (mkSplit sch loc)
  else Ok (mkSplit sch EmptyString).

End UrlParse.

(* ===================================================================== *)
(** ** URL normalisation and the eligibility filter *)
(* ===================================================================== *)

Module Url.
Import Text UrlParse.

Definition EXCLUDED_EXTENSIONS : list string :=
  [ "png"; "jpg"; "jpeg"; "gif"; "webp"; "svg"; "ico"; "bmp";
    "pdf"; "doc"; "docx"; "xls"; "xlsx"; "ppt"; "pptx";
    "zip"; "rar"; "7z"; "tar"; "gz";
    "mp3"; "mp4"; "avi"; "mov"; "wmv"; "flv";
    "css"; "js"; "woff"; "woff2"; "ttf"; "eot" ].

Definition EXCLUDED_PATHS : list string :=
  [ "cart"; "checkout"; "search"; "login"; "logout"; "register";
    "terms-of-service"; "privacy-policy"; "wp-admin"; "wp-login";
    "feed"; "xmlrpc"; "wp-json"; "api" ].

(** The alternatives of the regular expression [PAGINATION_PATTERNS]; each
    is a literal (the backslash only quotes the '?'). *)
Definition PAGINATION_LITERALS : list string :=
  [ "?page="; "?p="; "?pg="; "?pagenumber="; "?start="; "?offset=";
    "/page/"; "/p/"; "/pages/"; "#page=" ].

(** [PAGINATION_PATTERNS.search(link)]: some alternative occurs in [link],
    letter case ignored ([re.IGNORECASE]). *)
Definition PAGINATION_PATTERNS_search (link : string) : bool :=
  existsb (fun lit => str_in lit (lower link)) PAGINATION_LITERALS.

(** [normalize_url]: [url.lower().rstrip("/")]. *)
Definition normalize_url (url : string) : string := rstrip "/" (lower url).

(** [get_domain]: the scheme and the network location, joined by "://". *)
Definition get_domain (url : string) : result string :=
  try! parsed := urlsplit url in
  Ok (scheme parsed ++ "://" ++ netloc parsed).

(** [re.match(r"https?://", url, re.IGNORECASE)]. *)
Definition has_http_scheme (url : string) : bool :=
  String.prefix "http://" (lower url) || String.prefix "https://" (lower url).

Definition sanitize_url (url : string) : string :=
  let url := if negb (has_http_scheme url) then "https://" ++ url else url in
  normalize_url url.

Definition is_valid_link (link domain : string) : result bool :=
  try! d := get_domain link in
  if negb (String.eqb d domain) then Ok false
  else if str_in "#" link || str_in "?" link then Ok false
  else if PAGINATION_PATTERNS_search link then Ok false
  else
    let link_lower := lower link in
    if existsb (fun ext => str_in ("." ++ ext) link_lower) EXCLUDED_EXTENSIONS then Ok false
    else if existsb (fun path => str_in path link_lower) EXCLUDED_PATHS then Ok false
    else Ok true.

(** What the specification's words say [normalize] is: the URL in lower
    case, one trailing "/" removed when there is one. *)
Fixpoint strip_one_trailing_slash (s : string) : string :=
  match s with
  | EmptyString => EmptyString
  | String c EmptyString => if Ascii.eqb c "/" then EmptyString else s
  | String c rest => String c (strip_one_trailing_slash rest)
  end.

Definition normalize_spec (url : string) : string :=
  strip_one_trailing_slash (lower url).

End Url.

(* ===================================================================== *)
(** ** The page fetcher *)
(* ===================================================================== *)

Module Fetch.
Import Text Url.

Record PageData : Type := mkPageData {
  url : string;
  status_code : Z;
  title : string;
  meta_description : string;
  h1_tags : list string;
  h2_tags : list string
}.

(** What [fetch_page] reads of an [httpx] response: the status code, the
    "content-type" header (absent or a string) and the decoded body. *)
Record Response : Type := mkResponse {
  resp_status_code : Z;
  resp_content_type : option string;
  resp_text : string
}.

(** What [fetch_page] reads of a parsed document:
    [soup.title.string] ([None] when there is no title element or it has no
    single string), the [get_text(strip=True)] of every h1 and h2 in document
    order, the [content] attribute of the first [meta name="description"]
    ([None] when the element or the attribute is missing) and the [href] of
    every anchor that has one. *)
Record Soup : Type := mkSoup {
  soup_title_string : option string;
  soup_h1_texts : list string;
  soup_h2_texts : list string;
  soup_meta_description_content : option string;
  soup_anchor_hrefs : list string
}.

(** The environment a crawl runs in.  The first three fields are the
    capabilities [fetch_page] consumes: the HTTP client (asked at a given
    time for a URL), the HTML parser and [urllib.parse.urljoin]; each may
    raise.  The last two are the choices Python leaves open: which element
    [set.pop()] removes and the order in which a set is iterated. *)
Record Env : Type := mkEnv {
  client_get : nat -> string -> result Response;
  BeautifulSoup : string -> result Soup;
  urljoin : string -> string -> result string;
  set_pop : nat -> gset string -> string;
  set_iter : nat -> gset string -> list string
}.

Definition nonempty (s : string) : bool :=
  match s with EmptyString => false | String _ _ => true end.

(** The loop over [soup.find_all("a", href=True)] (lines 153-157). *)
Fixpoint collect_links (E : Env) (page_url domain : string)
    (anchors : list string) (links : list string) : result (list string) :=
  match anchors with
  | [] => Ok links
  | href :: rest =>
      try! joined := urljoin E page_url href in
      let full_url := normalize_url joined in
      try! valid := is_valid_link full_url domain in
      collect_links E page_url domain rest
        (if valid then (links ++ [full_url])%list else links)
  end.

(** The body of the [try] block of [fetch_page] (lines 132-159). *)
Definition fetch_page_try (E : Env) (now : nat) (page_url domain : string)
    : result (option PageData * list string) :=
  try! response := client_get E now page_url in
  let content_type := default "" (resp_content_type response) in
  if negb (str_in "text/html" content_type) then Ok (None, [])
  else
    try! soup := BeautifulSoup E (resp_text response) in
    let page_data :=
      {| url := page_url;
         status_code := resp_status_code response;
         title := match soup_title_string soup with
                  | Some t => if nonempty t then strip t else ""
                  | None => ""
                  end;
         meta_description := "";
         h1_tags := soup_h1_texts soup;
         h2_tags := soup_h2_texts soup |} in
    let page_data :=
      match soup_meta_description_content soup with
      | Some content =>
          if nonempty content then
            {| url := url page_data;
               status_code := status_code page_data;
               title := title page_data;
               meta_description := strip content;
               h1_tags := h1_tags page_data;
               h2_tags := h2_tags page_data |}
          else page_data
      | None => page_data
      end in
    try! links := collect_links E page_url domain (soup_anchor_hrefs soup) [] in
    Ok (Some page_data, links).

(** [fetch_page]: both handlers (lines 161-164) return [(None, [])]. *)
Definition fetch_page (E : Env) (now : nat) (page_url domain : string)
    : option PageData * list string :=
  match fetch_page_try E now page_url domain with
  | Ok r => r
  | Raise HTTPError => (None, [])
  | Raise _ => (None, [])
  end.

(** The three ways a fetch ends without a page. *)
Definition transport_failure (E : Env) (now : nat) (page_url : string) : Prop :=
  exists e, client_get E now page_url = Raise e.

Definition is_html (r : Response) : bool :=
  str_in "text/html" (default "" (resp_content_type r)).

Definition not_html (E : Env) (now : nat) (page_url : string) : Prop :=
  exists r, client_get E now page_url = Ok r /\ is_html r = false.

Definition processing_failure (E : Env) (now : nat) (page_url domain : string)
    : Prop :=
  exists r, client_get E now page_url = Ok r /\ is_html r = true /\
    ((exists e, BeautifulSoup E (resp_text r) = Raise e)
     \/ (exists soup e, BeautifulSoup E (resp_text r) = Ok soup /\
           collect_links E page_url domain (soup_anchor_hrefs soup) [] = Raise e)).

End Fetch.

(* ===================================================================== *)
(** ** The crawl engine *)
(* ===================================================================== *)

Module Engine.
Import Text Url Fetch.

Record CrawlStats : Type := mkStats {
  pages_crawled : Z;
  pages_failed : Z;
  pages_filtered : Z;
  total_links_found : Z
}.

Abbreviation FetchResult := (option PageData * list string)%type.

(** The control points of the batch loop of [crawl_site]. *)
Inductive Point : Type :=
| LoopTest                                   (* line 197: the outer [while] *)
| Drawing (batch : gset string)              (* line 199: the inner [while] *)
| Reducing (responses : list FetchResult)    (* line 211: [for ... in responses] *)
| Adding (links : list string) (responses : list FetchResult)
                                             (* line 217: [for link in links] *)
| Returned.                                  (* line 225 *)

(** The variables of [crawl_site], the control point, the time, and the log
    of the calls of [fetch_page] made so far, each with what it returned, in
    call order. *)
Record State : Type := mkState {
  visited : gset string;
  to_visit : gset string;
  results : list PageData;
  stats : CrawlStats;
  point : Point;
  clock : nat;
  fetched : list (string * FetchResult)
}.

Section Loop.

Variable E : Env.
Variable domain : string.
Variables max_pages concurrency : Z.

Definition goto (p : Point) (s : State) : State :=
  {| visited := visited s; to_visit := to_visit s; results := results s;
     stats := stats s; point := p; clock := S (clock s); fetched := fetched s |}.

(** One transition of the loop; [Returned] is final.  Every request of a
    batch is made at the time the batch is dispatched. *)
Definition step (s : State) : State :=
  match point s with
  | LoopTest =>
      (* while to_visit and stats.pages_crawled < max_pages *)
      if bool_decide (to_visit s ≠ ∅) && (pages_crawled (stats s) <? max_pages)
      then goto (Drawing ∅) s
      else goto Returned s
  | Drawing batch =>
      (* while to_visit and len(batch) < concurrency *)
      if bool_decide (to_visit s ≠ ∅) && (Z.of_nat (size batch) <? concurrency) then
        (* url = to_visit.pop(); if url not in visited: add it to both *)
        let u := set_pop E (clock s) (to_visit s) in
        if bool_decide (u ∉ visited s) then
          {| visited := visited s ∪ {[u]}; to_visit := to_visit s ∖ {[u]};
             results := results s; stats := stats s;
             point := Drawing (batch ∪ {[u]});
             clock := S (clock s); fetched := fetched s |}
        else
          {| visited := visited s; to_visit := to_visit s ∖ {[u]};
             results := results s; stats := stats s;
             point := Drawing batch;
             clock := S (clock s); fetched := fetched s |}
      else if bool_decide (batch = ∅) then goto Returned s   (* break *)
      else
        (* responses = await asyncio.gather(fetch_page(...) for url in batch) *)
        let tasks := map (fun u => (u, fetch_page E (clock s) u domain))
                         (set_iter E (clock s) batch) in
        {| visited := visited s; to_visit := to_visit s;
           results := results s; stats := stats s;
           point := Reducing (map snd tasks);
           clock := S (clock s); fetched := (fetched s ++ tasks)%list |}
  | Reducing [] => goto LoopTest s
  | Reducing ((Some page_data, links) :: rest) =>
      {| visited := visited s; to_visit := to_visit s;
         results := (results s ++ [page_data])%list;
         stats := {| pages_crawled := pages_crawled (stats s) + 1;
                     pages_failed := pages_failed (stats s);
                     pages_filtered := pages_filtered (stats s);
                     total_links_found :=
                       total_links_found (stats s) + Z.of_nat (length links) |};
         point := Adding links rest;
         clock := S (clock s); fetched := fetched s |}
  | Reducing ((None, _) :: rest) =>
      {| visited := visited s; to_visit := to_visit s;
         results := results s;
         stats := {| pages_crawled := pages_crawled (stats s);
                     pages_failed := pages_failed (stats s);
                     pages_filtered := pages_filtered (stats s) + 1;
                     total_links_found := total_links_found (stats s) |};
         point := Reducing rest;
         clock := S (clock s); fetched := fetched s |}
  | Adding [] rest => goto (Reducing rest) s
  | Adding (link :: more) rest =>
      (* if link not in visited and len(to_visit) + len(visited) < max_pages * 2 *)
      if bool_decide (link ∉ visited s)
         && (Z.of_nat (size (to_visit s)) + Z.of_nat (size (visited s)) <? max_pages * 2)
      then
        {| visited := visited s; to_visit := to_visit s ∪ {[link]};
           results := results s; stats := stats s;
           point := Adding more rest;
           clock := S (clock s); fetched := fetched s |}
      else goto (Adding more rest) s
  | Returned => s
  end.

Fixpoint run (n : nat) (s : State) : State :=
  match n with
  | O => s
  | S k => run k (step s)
  end.

(** Lines 175-178. *)
Definition init (start_url : string) : State :=
  {| visited := ∅; to_visit := {[start_url]}; results := [];
     stats := {| pages_crawled := 0; pages_failed := 0;
                 pages_filtered := 0; total_links_found := 0 |};
     point := LoopTest; clock := O; fetched := [] |}.

(** The loop run for at most [fuel] transitions: what line 225 returns, or
    [None] when the loop is still running. *)
Definition crawl_loop (fuel : nat) (start_url : string)
    : option (list PageData * CrawlStats) :=
  let s := run fuel (init start_url) in
  match point s with
  | Returned => Some (results s, stats s)
  | _ => None
  end.

(** The batch being drawn and the responses still to be reduced. *)
Definition batch_of (p : Point) : gset string :=
  match p with
  | Drawing batch => batch
  | _ => ∅
  end.

Definition pending (p : Point) : list FetchResult :=
  match p with
  | Reducing responses => responses
  | Adding _ responses => responses
  | _ => []
  end.

(** The page records and the number of absent records among responses. *)
Definition pages_of (rs : list FetchResult) : list PageData := omap fst rs.

Definition absent_in (rs : list FetchResult) : nat :=
  length (filter (fun r => fst r = None) rs).

(** The largest size the frontier, visited URLs included, can reach. *)
Definition frontier_cap : Z := Z.max 1 (max_pages * 2).

(** The most pages a run can record. *)
Definition crawl_cap : Z := Z.max 0 (max_pages - 1 + Z.max 0 concurrency).

(** What holds at every control point of the loop. *)
Record Inv (s : State) : Prop := mkInv {
  inv_disjoint : visited s ## to_visit s;
  inv_nodup : NoDup (map fst (fetched s));
  inv_visited : visited s = list_to_set (map fst (fetched s)) ∪ batch_of (point s);
  inv_fresh : forall u, u ∈ batch_of (point s) -> u ∉ map fst (fetched s);
  inv_frontier :
    Z.of_nat (size (to_visit s)) + Z.of_nat (size (visited s)) <= frontier_cap;
  inv_failed : pages_failed (stats s) = 0;
  inv_results :
    (results s ++ pages_of (pending (point s)))%list
    = pages_of (map snd (fetched s));
  inv_crawled : pages_crawled (stats s) = Z.of_nat (length (results s));
  inv_filtered :
    pages_filtered (stats s) + Z.of_nat (absent_in (pending (point s)))
    = Z.of_nat (absent_in (map snd (fetched s)));
  inv_draw : forall batch, point s = Drawing batch ->
    pages_crawled (stats s) < max_pages;
  inv_budget :
    pages_crawled (stats s) + Z.of_nat (length (pages_of (pending (point s))))
      + Z.of_nat (size (batch_of (point s))) <= crawl_cap
}.

End Loop.

(** Python's contract for the two open choices: [set.pop()] returns an
    element of a non-empty set, and iterating a set yields each of its
    elements once. *)
Definition env_ok (E : Env) : Prop :=
  (forall now (s : gset string), s ≠ ∅ -> set_pop E now s ∈ s)
  /\ (forall now (s : gset string), set_iter E now s ≡ₚ elements s).

(** [crawl_site]: line 174 may raise, then the loop. *)
Definition crawl_site (E : Env) (fuel : nat) (start_url : string)
    (max_pages concurrency : Z) : option (result (list PageData * CrawlStats)) :=
  match get_domain start_url with
  | Raise e => Some (Raise e)
  | Ok domain =>
      match crawl_loop E domain max_pages concurrency fuel start_url with
      | Some r => Some (Ok r)
      | None => None
      end
  end.

(** How the command [crawl] ends: [raise typer.Exit(code)], or the export
    of the results (lines 310-318). *)
Inductive CommandEnd : Type :=
| Exit (code : Z)
| Exported (rows : list PageData) (final : CrawlStats).

Definition crawl (E : Env) (fuel : nat) (url : string)
    (max_pages concurrency : Z) : option (result CommandEnd) :=
  let start_url := sanitize_url url in
  match get_domain start_url with
  | Raise e => Some (Raise e)
  | Ok _ =>
      match crawl_site E fuel start_url max_pages concurrency with
      | None => None
      | Some (Raise e) => Some (Raise e)
      | Some (Ok (results, stats)) =>
          match results with
          | [] => Some (Ok (Exit 1))
          | _ :: _ => Some (Ok (Exported results stats))
          end
      end
  end.

End Engine.

(* ===================================================================== *)
(** ** Small sites to run the engine on *)
(* ===================================================================== *)

Module Sites.
Import Text UrlParse Url Fetch Engine.

(** A site is a table from URL to the status code of its page and the
    [href]s of its anchors; every page is served as HTML. *)
Definition Site : Type := list (string * (Z * list string)).

Fixpoint page_of (site : Site) (u : string) : option (Z * list string) :=
  match site with
  | [] => None
  | (v, p) :: rest => if String.eqb u v then Some p else page_of rest u
  end.

(** [urljoin] on absolute references: both arguments are parsed, so a
    malformed one raises, and an absolute reference resolves to itself. *)
Definition urljoin_absolute (base ref : string) : result string :=
  try! b := urlsplit base in
  try! r := urlsplit ref in
  Ok ref.

(** The first element in the order of [elements], for [set.pop()]. *)
Definition pop_first (now : nat) (s : gset string) : string :=
  match elements s with
  | [] => EmptyString
  | u :: _ => u
  end.

(** The environment of a site: a URL outside the table does not connect;
    the body of a page is its own URL, which the parser looks up. *)
Definition site_env (site : Site) : Env :=
  {| client_get := fun _ u =>
       match page_of site u with
       | Some (code, _) => Ok (mkResponse code (Some "text/html; charset=utf-8") u)
       | None => Raise HTTPError
       end;
     BeautifulSoup := fun text =>
       match page_of site text with
       | Some (_, hrefs) => Ok (mkSoup (Some text) [] [] None hrefs)
       | None => Ok (mkSoup None [] [] None [])
       end;
     urljoin := urljoin_absolute;
     set_pop := pop_first;
     set_iter := fun _ s => elements s |}.

(** A hub page that links to three leaves. *)
Definition hub_site : Site :=
  [ ("https://site.com", (200, ["https://site.com/b"; "https://site.com/c";
                                "https://site.com/d"]));
    ("https://site.com/b", (200, []));
    ("https://site.com/c", (200, []));
    ("https://site.com/d", (200, [])) ].

(** Two pages that link to each other, and a chain of three pages. *)
Definition cycle_site : Site :=
  [ ("https://site.com", (200, ["https://site.com/b"]));
    ("https://site.com/b", (200, ["https://site.com"; "https://site.com/"])) ].

Definition chain_site : Site :=
  [ ("https://site.com", (200, ["https://site.com/b"]));
    ("https://site.com/b", (200, ["https://site.com/c"]));
    ("https://site.com/c", (200, [])) ].

(** A page that is served as HTML and has an anchor whose reference
    [urljoin] cannot parse (an opening bracket without its closing one). *)
Definition bracket_site : Site :=
  [ ("https://site.com", (200, ["https://site.com/about"; "http://["])) ].

(** A page served as HTML with status 404. *)
Definition missing_site : Site :=
  [ ("https://site.com", (404, ["https://site.com/home"])) ].

End Sites.

(* ===================================================================== *)
(** ** The ends of a string *)
(* ===================================================================== *)

Module Ends.
Import Text.

(** [s[0]] and [s[-1]], when [s] is not empty. *)
Definition first_char (s : string) : option ascii :=
  match s with
  | EmptyString => None
  | String c _ => Some c
  end.

Fixpoint last_char (s : string) : option ascii :=
  match s with
  | EmptyString => None
  | String c EmptyString => Some c
  | String _ rest => last_char rest
  end.

(** A string with no whitespace at either end. *)
Definition trimmed (s : string) : Prop :=
  (forall c, first_char s = Some c -> char_in c whitespace = false)
  /\ (forall c, last_char s = Some c -> char_in c whitespace = false).

End Ends.

(* ===================================================================== *)
(** ** Where the URLs and the counters of a run come from *)
(* ===================================================================== *)

Module Provenance.
Import Url Fetch Engine.

(** The links of the responses that carry a page, counted with repetition:
    what line 215 adds up. *)
Fixpoint links_in (rs : list FetchResult) : Z :=
  match rs with
  | [] => 0
  | (Some _, links) :: rest => Z.of_nat (length links) + links_in rest
  | (None, _) :: rest => links_in rest
  end.

(** The links of the page being reduced that are still to be looked at. *)
Definition adding_of (p : Point) : list string :=
  match p with
  | Adding links _ => links
  | _ => []
  end.

Section Prov.

Variable E : Env.
Variable domain : string.
Variables max_pages concurrency : Z.
Variable start_url : string.

(** A link the filter lets through for the domain of the run. *)
Definition eligible (link : string) : Prop := is_valid_link link domain = Ok true.

(** [r] is what [fetch_page] returned for [u] at some time of the run. *)
Definition fetched_by (u : string) (r : FetchResult) : Prop :=
  exists now, r = fetch_page E now u domain.

(** What holds of the origin of the data at every control point: the log
    and the responses are results of [fetch_page]; the links being added are
    eligible; every known URL is the seed or an eligible link; the link
    counter is the sum over the reduced pages; and line 225 is reached only
    with an empty frontier, a used-up budget or a batch size of zero. *)
Record Prov (s : State) : Prop := mkProv {
  prov_log : Forall (fun c => fetched_by (fst c) (snd c)) (fetched s);
  prov_pending : Forall (fun r => exists u, fetched_by u r) (pending (point s));
  prov_adding : Forall eligible (adding_of (point s));
  prov_known : forall u, u ∈ to_visit s ∪ visited s -> u = start_url \/ eligible u;
  prov_links :
    total_links_found (stats s) + links_in (pending (point s))
    = links_in (map snd (fetched s));
  prov_exit : point s = Returned ->
    to_visit s = ∅ \/ max_pages <= pages_crawled (stats s) \/ concurrency <= 0
}.

End Prov.

End Provenance.

(* ===================================================================== *)
(** ** The export of the results *)
(* ===================================================================== *)

Module CsvExport.
Import Text Fetch.

(** A value of the flat dictionary: the status code is an integer, all
    the rest is text. *)
Inductive Cell : Type :=
| CInt (z : Z)
| CStr (s : string).

(** [str(n)] for a natural number and [int(s)] for a string of decimal
    digits, which is all the column names give it; on anything else this
    [int] raises ValueError (so does Python's on an empty string or a
    letter; signs, spaces and underscores are left out here). *)
Definition str_of_nat (n : nat) : string := NilZero.string_of_uint (Nat.to_uint n).

Definition int_of_str (s : string) : result nat :=
  match NilZero.uint_of_string s with
  | Some d => Ok (Nat.of_uint d)
  | None => Raise ValueError
  end.

(** A decimal digit. *)
Definition is_digit (c : ascii) : bool := char_in c "0123456789".

(** [s.split(sep)] for a separator of one character. *)
Fixpoint split (sep : ascii) (s : string) : list string :=
  match s with
  | EmptyString => [EmptyString]
  | String c rest =>
      if Ascii.eqb c sep then EmptyString :: split sep rest
      else match split sep rest with
           | [] => [String c EmptyString]
           | word :: words => String c word :: words
           end
  end.

(** [enumerate(l, start)]. *)
Fixpoint enumerate {A : Type} (start : nat) (l : list A) : list (nat * A) :=
  match l with
  | [] => []
  | x :: rest => (start, x) :: enumerate (S start) rest
  end.

(** [PageData.to_dict] (lines 64-76). *)
Definition to_dict (p : PageData) : gmap string Cell :=
  let data : gmap string Cell :=
    <["Meta Description" := CStr (meta_description p)]>
      (<["Title" := CStr (title p)]>
        (<["URL" := CStr (url p)]>
          (<["Status Code" := CInt (status_code p)]> ∅))) in
  let data :=
    fold_left (fun d ih => <[("H1-" ++ str_of_nat (fst ih))%string := CStr (snd ih)]> d)
              (enumerate 1 (h1_tags p)) data in
  fold_left (fun d ih => <[("H2-" ++ str_of_nat (fst ih))%string := CStr (snd ih)]> d)
            (enumerate 1 (h2_tags p)) data.

(** A list function applied to every element, stopping at the first
    exception. *)
Fixpoint map_result {A B : Type} (f : A -> result B) (l : list A) : result (list B) :=
  match l with
  | [] => Ok []
  | x :: rest =>
      try! y := f x in
      try! ys := map_result f rest in
      Ok (y :: ys)
  end.

(** [sorted(l, key=keyf)]: the keys are computed first, then the elements
    are put in ascending key order, elements of equal key staying in their
    original order. *)
Fixpoint insert_by {A : Type} (k : nat) (x : A) (l : list (nat * A)) : list (nat * A) :=
  match l with
  | [] => [(k, x)]
  | (k', y) :: rest =>
      if (k <=? k')%nat then (k, x) :: l else (k', y) :: insert_by k x rest
  end.

Definition sort_keyed {A : Type} (l : list (nat * A)) : list (nat * A) :=
  fold_right (fun kx acc => insert_by (fst kx) (snd kx) acc) [] l.

Definition sorted {A : Type} (keyf : A -> result nat) (l : list A) : result (list A) :=
  try! keyed := map_result (fun x => try! k := keyf x in Ok (k, x)) l in
  Ok (map snd (sort_keyed keyed)).

(** [int(x.split("-")[1])]: IndexError without a "-", ValueError when what
    follows the first "-" is not a number. *)
Definition column_number (x : string) : result nat :=
  match split "-" x with
  | _ :: second :: _ => int_of_str second
  | _ => Raise OtherException
  end.

Definition base_columns : list string :=
  ["Status Code"; "URL"; "Title"; "Meta Description"].

(** The columns of the file (lines 233-241); [iter] is the order in which
    Python iterates the set of all keys. *)
Definition fieldnames_of (iter : gset string -> list string)
    (rows : list (gmap string Cell)) : result (list string) :=
  let all_keys : gset string := fold_left (fun acc row => acc ∪ dom row) rows ∅ in
  try! h1_cols :=
    sorted column_number
           (filter (fun k => String.prefix "H1-" k = true) (iter all_keys)) in
  try! h2_cols :=
    sorted column_number
           (filter (fun k => String.prefix "H2-" k = true) (iter all_keys)) in
  Ok (base_columns ++ h1_cols ++ h2_cols)%list.

(** What [csv.DictWriter] writes for a row: the value of each column, the
    empty string where the row has none. *)
Definition row_cells (fieldnames : list string) (row : gmap string Cell) : list Cell :=
  map (fun k => default (CStr "") (row !! k)) fieldnames.

(** [export_to_csv] (lines 228-246): nothing is written for an empty list
    of results; otherwise the header and one line per result. *)
Definition export_to_csv (iter : gset string -> list string) (results : list PageData)
    : result (option (list string * list (list Cell))) :=
  match results with
  | [] => Ok None
  | _ :: _ =>
      let rows := map to_dict results in
      try! fieldnames := fieldnames_of iter rows in
      Ok (Some (fieldnames, map (row_cells fieldnames) rows))
  end.

(** The cells of the headings of a page under [n] heading columns. *)
Definition padded (tags : list string) (n : nat) : list Cell :=
  (map CStr tags ++ repeat (CStr "") (n - length tags))%list.

(** The largest number of h1 and of h2 headings among the results. *)
Definition max_h1 (results : list PageData) : nat :=
  max_list (map (fun p => length (h1_tags p)) results).

Definition max_h2 (results : list PageData) : nat :=
  max_list (map (fun p => length (h2_tags p)) results).

(** The column names "H1-1" ... "H1-n". *)
Definition heading_columns (tag : string) (n : nat) : list string :=
  map (fun i => (tag ++ "-" ++ str_of_nat i)%string) (seq 1 n).

End CsvExport.

(* ===================================================================== *)
(** ** The table on the console and the name of the output file *)
(* ===================================================================== *)

Module Display.
Import Text Fetch CsvExport.

(** [str(z)] for an integer. *)
Definition str_of_Z (z : Z) : string := NilZero.string_of_int (Z.to_int z).

(** [s[:n] + "..." if len(s) > n else s]. *)
Definition shorten (n : nat) (s : string) : string :=
  if (n <? String.length s)%nat then (take n s ++ "...")%string else s.

(** The row of a page in the table (lines 257-262): the status code in
    green when it is 200 and in yellow otherwise, the URL cut at 60
    characters and the title at 40. *)
Definition page_row (page : PageData) : string * string * string :=
  let status_style := if (status_code page =? 200)%Z then "green" else "yellow" in
  (("[" ++ status_style ++ "]" ++ str_of_Z (status_code page)
    ++ "[/" ++ status_style ++ "]")%string,
   shorten 60 (url page),
   shorten 40 (title page)).

(** The rows [display_results] adds to the table (lines 256-265). *)
Definition table_rows (results : list PageData) : list (string * string * string) :=
  (map page_row (firstn 20 results)
   ++ (if (20 <? length results)%nat
       then [("...",
              ("[dim]and " ++ str_of_nat (length results - 20) ++ " more pages[/dim]")%string,
              "")]
       else []))%list.

Section FileName.

(** Whether a character outside ASCII is a word character for [\w] is
    left to the regular expression engine. *)
Variable unicode_word : ascii -> bool.

(** [\w] and "-": the characters [re.sub(r"[^\w\-]", "_", ...)] keeps. *)
Definition kept_char (c : ascii) : bool :=
  let n := nat_of_ascii c in
  ((48 <=? n) && (n <=? 57) || (65 <=? n) && (n <=? 90) || (97 <=? n) && (n <=? 122)
   || (n =? 95) || (n =? 45))%nat
  || ((128 <=? n)%nat && unicode_word c).

Fixpoint sub_unkept (s : string) : string :=
  match s with
  | EmptyString => EmptyString
  | String c rest => String (if kept_char c then c else "_"%char) (sub_unkept rest)
  end.

(** [s.replace(old, new)] for a non-empty [old]: the occurrences of [old]
    are replaced from the left, [skip] counting the characters of an
    occurrence still to be passed over. *)
Fixpoint replace_from (old new : string) (skip : nat) (s : string) : string :=
  match s with
  | EmptyString => EmptyString
  | String c rest =>
      match skip with
      | S k => replace_from old new k rest
      | O =>
          if String.prefix old s
          then (new ++ replace_from old new (String.length old - 1) rest)%string
          else String c (replace_from old new O rest)
      end
  end.

Definition replace (old new s : string) : string := replace_from old new O s.

(** The default output path of [crawl] (lines 313-315). *)
Definition default_output (domain : string) : string :=
  let safe_domain :=
    sub_unkept (replace "http://" "" (replace "https://" "" domain)) in
  (safe_domain ++ "_crawl.csv")%string.

End FileName.

End Display.

(* ===================================================================== *)
(** ** Facts about the string primitives *)
(* ===================================================================== *)

Module TextFacts.
Import Text.

Lemma append_nil_l (s : string) : (EmptyString ++ s)%string = s.
Proof. reflexivity. Qed.

Lemma append_cons (c : ascii) (s t : string) :
  (String c s ++ t)%string = String c (s ++ t)%string.
Proof. reflexivity. Qed.

Lemma lower_char_idem (c : ascii) : lower_char (lower_char c) = lower_char c.
Proof. destruct c as [[] [] [] [] [] [] [] []]; reflexivity. Qed.

Lemma lower_idem (s : string) : lower (lower s) = lower s.
Proof.
  induction s as [|c s IH]; simpl; [reflexivity|].
  now rewrite lower_char_idem, IH.
Qed.

Lemma lower_char_slash (c : ascii) : char_in (lower_char c) "/" = char_in c "/".
Proof. destruct c as [[] [] [] [] [] [] [] []]; reflexivity. Qed.

Lemma char_in_slash (c : ascii) : char_in c "/" = true <-> c = "/"%char.
Proof.
  simpl. rewrite orb_false_r. apply Ascii.eqb_eq.
Qed.

(** Stripping and lowering commute for a set of characters that [lower]
    neither creates nor destroys. *)
Lemma lower_rstrip_slash (s : string) : lower (rstrip "/" s) = rstrip "/" (lower s).
Proof.
  induction s as [|c s IH]; [reflexivity|].
  cbn [rstrip lower]. rewrite <- IH, lower_char_slash.
  destruct (rstrip "/" s) as [|d k]; cbn [lower].
  - destruct (char_in c "/"); reflexivity.
  - reflexivity.
Qed.

Lemma rstrip_idem (chars s : string) : rstrip chars (rstrip chars s) = rstrip chars s.
Proof.
  induction s as [|c s IH]; [reflexivity|].
  cbn [rstrip]. destruct (rstrip chars s) as [|d k] eqn:Hk.
  - destruct (char_in c chars) eqn:Hc; [reflexivity|].
    cbn [rstrip]. now rewrite Hc.
  - cbn [rstrip] in IH |- *. cbn [rstrip]. now rewrite IH.
Qed.

Lemma rstrip_slashes (n : nat) : rstrip "/" (slashes n) = EmptyString.
Proof.
  induction n as [|n IH]; [reflexivity|].
  cbn [slashes rstrip]. now rewrite IH.
Qed.

(** What is stripped is a run of slashes. *)
Lemma rstrip_decompose (s : string) : exists n, s = (rstrip "/" s ++ slashes n)%string.
Proof.
  induction s as [|c s [n IH]]; [now exists O|].
  cbn [rstrip]. destruct (rstrip "/" s) as [|d k].
  - destruct (char_in c "/") eqn:Hc.
    + apply char_in_slash in Hc. subst c. exists (S n).
      change (String "/" s = String "/" (EmptyString ++ slashes n)%string).
      now rewrite <- IH.
    + exists n.
      change (String c s = String c (EmptyString ++ slashes n)%string).
      now rewrite <- IH.
  - exists n.
    change (String c s = String c (String d k ++ slashes n)%string).
    now rewrite <- IH.
Qed.

(** What is left does not end with a slash. *)
Lemma rstrip_no_trailing_slash (s : string) : ends_with_slash (rstrip "/" s) = false.
Proof.
  induction s as [|c s IH]; [reflexivity|].
  cbn [rstrip]. destruct (rstrip "/" s) as [|d k].
  - destruct (char_in c "/") eqn:Hc; [reflexivity|].
    simpl. destruct (Ascii.eqb c "/") eqn:He; [|reflexivity].
    apply Ascii.eqb_eq in He. apply char_in_slash in He. congruence.
  - exact IH.
Qed.

(** A string without a trailing slash is what [rstrip] gives back after any
    run of slashes is put behind it. *)
Lemma rstrip_append_slashes (r : string) (n : nat) :
  ends_with_slash r = false -> rstrip "/" (r ++ slashes n) = r.
Proof.
  induction r as [|c r IH]; intros Hr.
  - rewrite append_nil_l. apply rstrip_slashes.
  - rewrite append_cons. cbn [rstrip]. destruct r as [|d k].
    + rewrite append_nil_l, rstrip_slashes.
      destruct (char_in c "/") eqn:Hc; [|reflexivity].
      apply char_in_slash in Hc. subst c. discriminate Hr.
    + rewrite IH by exact Hr. reflexivity.
Qed.

End TextFacts.

(* ===================================================================== *)
(** ** [normalize_url] and [is_valid_link] *)
(* ===================================================================== *)

Module UrlFacts.
Import Text Url TextFacts.

(** C7, as the code has it: [normalize_url u] is the lower-cased URL with
    every trailing "/" removed, that is, it is the one string [r] without a
    trailing "/" such that the lower-cased URL is [r] followed by slashes
    only. *)
Theorem normalize_url_strips_every_slash (u r : string) :
  normalize_url u = r <->
  ends_with_slash r = false /\ exists n, lower u = (r ++ slashes n)%string.
Proof.
  unfold normalize_url. split.
  - intros <-. split; [apply rstrip_no_trailing_slash | apply rstrip_decompose].
  - intros [Hr [n Hn]]. rewrite Hn. now apply rstrip_append_slashes.
Qed.

(** C7, as the specification words it, fails: with two trailing slashes the
    code removes both, the one-slash reading leaves one. *)
Lemma normalize_url_not_single_slash :
  normalize_url "https://site.com//" = "https://site.com"
  /\ normalize_spec "https://site.com//" = "https://site.com/"
  /\ normalize_url "https://site.com//" <> normalize_spec "https://site.com//".
Proof. split; [reflexivity | split; [reflexivity | discriminate]]. Qed.

(** The two readings agree on a URL with at most one trailing slash. *)
Lemma normalize_spec_agrees (u : string) :
  ends_with_slash (normalize_spec u) = false -> normalize_url u = normalize_spec u.
Proof.
  unfold normalize_url, normalize_spec. intros H.
  assert (Hn : exists n, lower u = (strip_one_trailing_slash (lower u) ++ slashes n)%string).
  { clear H. induction (lower u) as [|c s [n IH]]; [now exists O|].
    cbn [strip_one_trailing_slash]. destruct s as [|d k].
    - destruct (Ascii.eqb c "/") eqn:Hc.
      + apply Ascii.eqb_eq in Hc. subst c. now exists 1%nat.
      + now exists O.
    - exists n. rewrite append_cons. now rewrite <- IH. }
  destruct Hn as [n Hn]. rewrite Hn at 1. now apply rstrip_append_slashes.
Qed.

(** C8: normalisation is idempotent, and it identifies the two spellings of
    the example URL. *)
Theorem normalize_url_idempotent :
  (forall u, normalize_url (normalize_url u) = normalize_url u)
  /\ normalize_url "HTTP://Example.com/Foo/" = normalize_url "http://example.com/foo".
Proof.
  split; [|reflexivity].
  intros u. unfold normalize_url.
  now rewrite lower_rstrip_slash, lower_idem, rstrip_idem.
Qed.

(** C9: an image and the cart are not eligible, a blog post is. *)
Theorem is_valid_link_examples :
  is_valid_link "https://site.com/img.png" "https://site.com" = Ok false
  /\ is_valid_link "https://site.com/cart" "https://site.com" = Ok false
  /\ is_valid_link "https://site.com/blog/post-1" "https://site.com" = Ok true.
Proof. split; [|split]; vm_compute; reflexivity. Qed.

End UrlFacts.

(* ===================================================================== *)
(** ** The page fetcher *)
(* ===================================================================== *)

Module FetchFacts.
Import Text Url Fetch Sites.

(** C5, as the code has it: [fetch_page] returns [(None, [])] exactly when
    the request raises, or the content type lacks "text/html", or parsing
    the body or resolving and filtering one of its links raises; otherwise
    it returns a record that carries the URL asked for and the status code
    of the response, whatever that code is. *)
Theorem fetch_page_absent_iff (E : Env) (now : nat) (u d : string) :
  (fetch_page E now u d = (None, []) <->
     transport_failure E now u \/ not_html E now u \/ processing_failure E now u d)
  /\ match fetch_page E now u d with
     | (Some page_data, _) =>
         exists r, client_get E now u = Ok r /\ is_html r = true
                   /\ status_code page_data = resp_status_code r
                   /\ url page_data = u
     | (None, links) => links = []
     end.
Proof.
  unfold transport_failure, not_html, processing_failure, fetch_page,
    fetch_page_try, is_html.
  destruct (client_get E now u) as [r|e]; cbn [bind].
  2:{ split.
      - split; [intros _; left; now exists e|]. now destruct e.
      - now destruct e. }
  destruct (str_in "text/html" (default "" (resp_content_type r))) eqn:Hh; cbn [negb].
  2:{ split; [|reflexivity].
      split; [intros _; right; left; now exists r | reflexivity]. }
  destruct (BeautifulSoup E (resp_text r)) as [soup|e] eqn:Hs; cbn [bind].
  2:{ split.
      - split; [intros _|now destruct e].
        right; right. exists r. rewrite Hh. repeat split; try reflexivity.
        left. now exists e.
      - now destruct e. }
  destruct (collect_links E u d (soup_anchor_hrefs soup) []) as [links|e] eqn:Hl;
    cbn [bind].
  2:{ split.
      - split; [intros _|now destruct e].
        right; right. exists r. rewrite Hh. repeat split; try reflexivity.
        right. now exists soup, e.
      - now destruct e. }
  split.
  - split; [discriminate|].
    intros [[e He]|[[r' [Hr' Hn]]|[r' [Hr' [_ [[e He]|[soup' [e [Hs' He]]]]]]]]].
    + discriminate He.
    + injection Hr' as <-. congruence.
    + injection Hr' as <-. congruence.
    + injection Hr' as <-. rewrite Hs in Hs'. injection Hs' as <-. congruence.
  - exists r. rewrite Hh. repeat split; try reflexivity.
    all: destruct (soup_meta_description_content soup) as [c|]; [|reflexivity].
    all: destruct (nonempty c); reflexivity.
Qed.

(** C5, as the specification words it, fails: the page of [bracket_site] is
    fetched and is HTML, yet one of its anchors makes [urljoin] raise, and
    the handler turns that into an absent page. *)
Lemma fetch_page_absent_on_html_page :
  let E := site_env bracket_site in
  let u := "https://site.com" in
  client_get E 0 u = Ok (mkResponse 200 (Some "text/html; charset=utf-8") u)
  /\ fetch_page E 0 u u = (None, [])
  /\ ~ (fetch_page E 0 u u = (None, []) <-> transport_failure E 0 u \/ not_html E 0 u).
Proof.
  split; [reflexivity|]. split; [reflexivity|].
  intros [H _]. destruct (H eq_refl) as [[e He]|[r [Hr Hn]]].
  - discriminate He.
  - vm_compute in Hr. injection Hr as <-. vm_compute in Hn. discriminate Hn.
Qed.

(** A 404 page served as HTML is recorded with its status code. *)
Example fetch_page_keeps_404 :
  exists page_data links,
    fetch_page (site_env missing_site) 0 "https://site.com" "https://site.com"
      = (Some page_data, links)
    /\ status_code page_data = 404.
Proof. eexists _, _. split; vm_compute; reflexivity. Qed.

End FetchFacts.

(* ===================================================================== *)
(** ** The crawl engine *)
(* ===================================================================== *)

Module EngineFacts.
Import Text Url Fetch Engine Sites.

#[local] Set Warnings "-clear-no-such-hyp".

(** *** Bookkeeping about responses *)

Lemma pages_of_app (rs1 rs2 : list FetchResult) :
  pages_of (rs1 ++ rs2) = (pages_of rs1 ++ pages_of rs2)%list.
Proof. unfold pages_of. apply omap_app. Qed.

Lemma absent_in_app (rs1 rs2 : list FetchResult) :
  absent_in (rs1 ++ rs2) = (absent_in rs1 + absent_in rs2)%nat.
Proof. unfold absent_in. now rewrite filter_app, length_app. Qed.

Lemma pages_of_nil : pages_of [] = [].
Proof. reflexivity. Qed.

Lemma absent_in_nil : absent_in [] = O.
Proof. reflexivity. Qed.

Lemma pages_of_some (p : PageData) (l : list string) (rs : list FetchResult) :
  pages_of ((Some p, l) :: rs) = p :: pages_of rs.
Proof. reflexivity. Qed.

Lemma pages_of_none (l : list string) (rs : list FetchResult) :
  pages_of ((None, l) :: rs) = pages_of rs.
Proof. reflexivity. Qed.

Lemma absent_in_some (p : PageData) (l : list string) (rs : list FetchResult) :
  absent_in ((Some p, l) :: rs) = absent_in rs.
Proof. unfold absent_in. now rewrite filter_cons_False by (simpl; discriminate). Qed.

Lemma absent_in_none (l : list string) (rs : list FetchResult) :
  absent_in ((None, l) :: rs) = S (absent_in rs).
Proof. unfold absent_in. now rewrite filter_cons_True by reflexivity. Qed.

(** Each response is a page or an absence. *)
Lemma pages_absent_total (rs : list FetchResult) :
  (length (pages_of rs) + absent_in rs = length rs)%nat.
Proof.
  induction rs as [|[[p|] l] rs IH]; [reflexivity| |].
  - rewrite pages_of_some, absent_in_some. cbn [length]. lia.
  - rewrite pages_of_none, absent_in_none. cbn [length]. lia.
Qed.

Lemma pages_of_length (rs : list FetchResult) :
  (length (pages_of rs) <= length rs)%nat.
Proof. pose proof (pages_absent_total rs). lia. Qed.

(** Reading the fields of an explicit state. *)
Ltac fields :=
  cbn [visited to_visit results stats point clock fetched goto init
       pages_crawled pages_failed pages_filtered total_links_found
       batch_of pending] in *.

Section Run.

Variable E : Env.
Hypothesis E_ok : env_ok E.
Variable domain : string.
Variables max_pages concurrency : Z.

Abbreviation step := (Engine.step E domain max_pages concurrency).
Abbreviation run := (Engine.run E domain max_pages concurrency).
Abbreviation Inv := (Engine.Inv max_pages concurrency).

Lemma init_inv (start_url : string) : Inv (init start_url).
Proof.
  constructor; fields.
  - set_solver.
  - constructor.
  - set_solver.
  - set_solver.
  - rewrite size_singleton, size_empty. unfold frontier_cap. lia.
  - reflexivity.
  - reflexivity.
  - reflexivity.
  - reflexivity.
  - discriminate.
  - rewrite size_empty, pages_of_nil. unfold crawl_cap. cbn [length]. lia.
Qed.

(** Moving the control point alone keeps the invariant, as long as the new
    point carries the same batch and the same responses. *)
Lemma goto_inv (p : Point) (s : State) :
  Inv s ->
  batch_of p = batch_of (point s) ->
  pending p = pending (point s) ->
  (forall batch, p = Drawing batch -> pages_crawled (stats s) < max_pages) ->
  Inv (goto p s).
Proof.
  intros [Hdis Hnd Hvis Hfresh Hfront Hfail Hres Hcr Hfil Hdraw Hbud] Hb Hq Hd.
  constructor; fields; rewrite ?Hb, ?Hq; assumption.
Qed.

Lemma step_inv (s : State) : Inv s -> Inv (step s).
Proof.
  intros HI. pose proof HI as [Hdis Hnd Hvis Hfresh Hfront Hfail Hres Hcr Hfil Hdraw Hbud].
  unfold Engine.step.
  destruct (point s) as [|batch|[|[[page_data|] links] rest]|[|link more] rest|] eqn:Hp;
    fields.
  - (* line 197 *)
    destruct (bool_decide (to_visit s ≠ ∅) && (pages_crawled (stats s) <? max_pages))
      eqn:Hc.
    + apply andb_true_iff in Hc as [_ Hc]. apply Z.ltb_lt in Hc.
      apply goto_inv; rewrite ?Hp; auto.
    + apply goto_inv; rewrite ?Hp; auto. discriminate.
  - (* lines 199-206 *)
    destruct (bool_decide (to_visit s ≠ ∅) && (Z.of_nat (size batch) <? concurrency))
      eqn:Hc.
    + apply andb_true_iff in Hc as [Hne Hc]. apply Z.ltb_lt in Hc.
      apply bool_decide_eq_true in Hne.
      pose proof (proj1 E_ok (clock s) (to_visit s) Hne) as Hu.
      generalize dependent (set_pop E (clock s) (to_visit s)). intros u Hu.
      assert (Hnv : u ∉ visited s) by set_solver.
      rewrite bool_decide_eq_true_2 by exact Hnv.
      assert (Hnb : u ∉ batch) by set_solver.
      pose proof (Hdraw batch eq_refl) as Hlt.
      constructor; fields.
      * set_solver.
      * exact Hnd.
      * set_solver.
      * intros x Hx. apply elem_of_union in Hx as [Hx|Hx]; [now apply Hfresh|].
        apply elem_of_singleton in Hx. subst x. set_solver.
      * rewrite (size_union (visited s) {[u]}) by set_solver.
        rewrite (size_difference (to_visit s) {[u]}) by set_solver.
        rewrite size_singleton.
        assert (1 <= size (to_visit s))%nat.
        { rewrite <- (size_singleton (C:=gset string) u).
          apply subseteq_size. set_solver. }
        lia.
      * exact Hfail.
      * exact Hres.
      * exact Hcr.
      * exact Hfil.
      * intros _ _. exact Hlt.
      * rewrite (size_union batch {[u]}) by set_solver. rewrite size_singleton.
        rewrite pages_of_nil in *. cbn [length] in *. unfold crawl_cap. lia.
    + destruct (bool_decide (batch = ∅)) eqn:Hb.
      * apply bool_decide_eq_true in Hb.
        apply goto_inv; rewrite ?Hp; auto. discriminate.
      * apply bool_decide_eq_false in Hb.
        pose proof (proj2 E_ok (clock s) batch) as Hperm.
        generalize dependent (set_iter E (clock s) batch). intros urls Hperm.
        set (tasks := map (fun u => (u, fetch_page E (clock s) u domain)) urls).
        assert (Hfst : map fst tasks = urls).
        { unfold tasks. rewrite map_map. cbn [fst]. apply map_id. }
        assert (Hlen : length tasks = size batch).
        { unfold tasks. rewrite length_map. unfold size, set_size. cbn.
          now rewrite Hperm. }
        assert (Hin : forall x, x ∈ urls <-> x ∈ batch).
        { intros x. rewrite Hperm. apply elem_of_elements. }
        rewrite pages_of_nil, app_nil_r in Hres. rewrite absent_in_nil in Hfil.
        constructor; fields; rewrite ?map_app, ?Hfst.
        -- exact Hdis.
        -- apply NoDup_app. split; [exact Hnd|]. split.
           ++ intros x Hx Hx'. apply Hin in Hx'. now apply (Hfresh x).
           ++ rewrite Hperm. apply NoDup_elements.
        -- rewrite Hvis. rewrite list_to_set_app_L. set_solver.
        -- set_solver.
        -- exact Hfront.
        -- exact Hfail.
        -- rewrite pages_of_app. now rewrite Hres.
        -- exact Hcr.
        -- rewrite absent_in_app. lia.
        -- discriminate.
        -- rewrite size_empty. rewrite pages_of_nil in Hbud. cbn [length] in Hbud.
           pose proof (pages_of_length (map snd tasks)) as Hle.
           rewrite length_map in Hle. lia.
  - (* line 211, no response left *)
    apply goto_inv; rewrite ?Hp; auto. discriminate.
  - (* lines 212-215 *)
    rewrite pages_of_some, absent_in_some in *.
    constructor; fields; try assumption.
    + rewrite <- Hres. now rewrite <- app_assoc.
    + rewrite length_app. cbn [length]. lia.
    + discriminate.
    + cbn [length] in Hbud. lia.
  - (* lines 220-221 *)
    rewrite pages_of_none, absent_in_none in *.
    constructor; fields; try assumption.
    + lia.
    + discriminate.
  - (* line 217, no link left *)
    apply goto_inv; rewrite ?Hp; auto. discriminate.
  - (* lines 218-219 *)
    destruct (bool_decide (link ∉ visited s)
              && (Z.of_nat (size (to_visit s)) + Z.of_nat (size (visited s))
                  <? max_pages * 2)) eqn:Hc.
    + apply andb_true_iff in Hc as [Hnv Hc]. apply Z.ltb_lt in Hc.
      apply bool_decide_eq_true in Hnv.
      constructor; fields; try assumption.
      * set_solver.
      * pose proof (size_union_alt (to_visit s) {[link]}) as Hsz.
        assert (size ({[link]} ∖ to_visit s) <= 1)%nat.
        { rewrite <- (size_singleton (C:=gset string) link).
          apply subseteq_size. set_solver. }
        unfold frontier_cap. lia.
      * discriminate.
    + apply goto_inv; rewrite ?Hp; auto. discriminate.
  - (* line 225 *)
    exact HI.
Qed.

Lemma run_inv (n : nat) (s : State) : Inv s -> Inv (run n s).
Proof.
  revert s. induction n as [|n IH]; intros s HI; [exact HI|].
  cbn [Engine.run]. apply IH, step_inv, HI.
Qed.

Lemma run_add (a b : nat) (s : State) : run (a + b) s = run b (run a s).
Proof.
  revert s. induction a as [|a IH]; intros s; [reflexivity|].
  cbn [Nat.add Engine.run]. apply IH.
Qed.

Lemma step_returned (s : State) : point s = Returned -> step s = s.
Proof. intros H. unfold Engine.step. now rewrite H. Qed.

Lemma run_returned (n : nat) (s : State) : point s = Returned -> run n s = s.
Proof.
  intros H. induction n as [|n IH]; [reflexivity|].
  cbn [Engine.run]. now rewrite step_returned.
Qed.

(** *** Termination, loop by loop *)

(** Line 217: the loop over the links of a page ends. *)
Lemma adding_finishes (links : list string) :
  forall (s : State) (rest : list FetchResult),
    point s = Adding links rest ->
    exists n, point (run n s) = Reducing rest /\ visited (run n s) = visited s.
Proof.
  induction links as [|link more IH]; intros s rest Hp.
  - exists 1%nat. cbn [Engine.run]. unfold Engine.step. rewrite Hp. now fields.
  - destruct (IH (step s) rest) as [n [Hn Hv]].
    { unfold Engine.step. rewrite Hp. now destruct (_ && _). }
    exists (S n). cbn [Engine.run]. split; [exact Hn|]. rewrite Hv.
    unfold Engine.step. rewrite Hp. now destruct (_ && _).
Qed.

(** Line 211: the loop over the responses of a batch ends. *)
Lemma reducing_finishes (responses : list FetchResult) :
  forall s : State,
    point s = Reducing responses ->
    exists n, point (run n s) = LoopTest /\ visited (run n s) = visited s.
Proof.
  induction responses as [|[[page_data|] links] rest IH]; intros s Hp.
  - exists 1%nat. cbn [Engine.run]. unfold Engine.step. rewrite Hp. now fields.
  - assert (H1 : point (step s) = Adding links rest /\ visited (step s) = visited s).
    { unfold Engine.step. now rewrite Hp. }
    destruct H1 as [Hp1 Hv1].
    destruct (adding_finishes links (step s) rest Hp1) as [n1 [Hp2 Hv2]].
    destruct (IH _ Hp2) as [n2 [Hp3 Hv3]].
    exists (S (n1 + n2)). cbn [Engine.run]. rewrite run_add.
    split; [exact Hp3|]. congruence.
  - assert (H1 : point (step s) = Reducing rest /\ visited (step s) = visited s).
    { unfold Engine.step. now rewrite Hp. }
    destruct H1 as [Hp1 Hv1].
    destruct (IH _ Hp1) as [n2 [Hp3 Hv3]].
    exists (S n2). cbn [Engine.run]. split; [exact Hp3|]. congruence.
Qed.

(** Line 199: drawing a batch ends, with a [break] or with a dispatched
    batch; a batch that was empty at some point has grown by then. *)
Lemma drawing_finishes (k : nat) :
  forall (s : State) (batch : gset string),
    size (to_visit s) = k -> Inv s -> point s = Drawing batch ->
    exists n,
      point (run n s) = Returned
      \/ (exists responses, point (run n s) = Reducing responses /\
            (size (visited s) + (if bool_decide (batch = ∅) then 1 else 0)
             <= size (visited (run n s)))%nat).
Proof.
  induction k as [|k IH]; intros s batch Hk HI Hp.
  - exists 1%nat. cbn [Engine.run]. unfold Engine.step. rewrite Hp.
    apply size_empty_iff in Hk. apply leibniz_equiv in Hk.
    rewrite (bool_decide_eq_false_2 (to_visit s ≠ ∅)) by (intros H; now apply H).
    cbn [andb]. destruct (bool_decide (batch = ∅)); [now left|].
    right. eexists. fields. split; [reflexivity|lia].
  - destruct (bool_decide (to_visit s ≠ ∅) && (Z.of_nat (size batch) <? concurrency))
      eqn:Hc.
    + pose proof (step_inv s HI) as HI1.
      apply andb_true_iff in Hc as [Hne Hc].
      apply bool_decide_eq_true in Hne.
      pose proof (proj1 E_ok (clock s) (to_visit s) Hne) as Hu.
      assert (Hnv : set_pop E (clock s) (to_visit s) ∉ visited s).
      { pose proof (inv_disjoint _ _ _ HI). set_solver. }
      assert (Hs : point (step s) = Drawing (batch ∪ {[set_pop E (clock s) (to_visit s)]})
                   /\ to_visit (step s) = to_visit s ∖ {[set_pop E (clock s) (to_visit s)]}
                   /\ visited (step s) = visited s ∪ {[set_pop E (clock s) (to_visit s)]}).
      { unfold Engine.step. rewrite Hp.
        rewrite (bool_decide_eq_true_2 _ Hne), (proj2 (Z.ltb_lt _ _) (proj1 (Z.ltb_lt _ _) Hc)).
        cbn [andb]. rewrite (bool_decide_eq_true_2 _ Hnv). now fields. }
      destruct Hs as [Hp1 [Ht1 Hv1]].
      generalize dependent (set_pop E (clock s) (to_visit s)). intros u Hu Hnv Hp1 Ht1 Hv1.
      assert (Hk1 : size (to_visit (step s)) = k).
      { rewrite Ht1, (size_difference (to_visit s) {[u]}) by set_solver.
        rewrite size_singleton. lia. }
      destruct (IH (step s) _ Hk1 HI1 Hp1) as [n [Hn|[rs [Hn Hsz]]]].
      * exists (S n). now left.
      * exists (S n). right. exists rs. cbn [Engine.run]. split; [exact Hn|].
        rewrite Hv1, (size_union (visited s) {[u]}), size_singleton in Hsz by set_solver.
        destruct (bool_decide (batch = ∅)); lia.
    + exists 1%nat. cbn [Engine.run]. unfold Engine.step. rewrite Hp, Hc.
      destruct (bool_decide (batch = ∅)); [now left|].
      right. eexists. fields. split; [reflexivity|lia].
Qed.

(** Line 197: every round that does not return visits a new URL, and the
    frontier cap bounds how many there can be. *)
Lemma loop_finishes (m : nat) :
  forall s : State,
    (Z.to_nat (frontier_cap max_pages) - size (visited s) <= m)%nat ->
    Inv s -> point s = LoopTest ->
    exists n, point (run n s) = Returned.
Proof.
  induction m as [|m IH]; intros s Hm HI Hp.
  all: destruct (bool_decide (to_visit s ≠ ∅) && (pages_crawled (stats s) <? max_pages))
         eqn:Hc;
       [|exists 1%nat; cbn [Engine.run]; unfold Engine.step; now rewrite Hp, Hc].
  all: assert (H1 : point (step s) = Drawing ∅ /\ visited (step s) = visited s)
         by (unfold Engine.step; now rewrite Hp, Hc).
  all: destruct H1 as [Hp1 Hv1].
  all: pose proof (step_inv s HI) as HI1.
  all: destruct (drawing_finishes _ (step s) ∅ eq_refl HI1 Hp1) as [n1 [Hr|[rs [Hp2 Hsz]]]];
       [exists (S n1); exact Hr|].
  all: rewrite bool_decide_eq_true_2 in Hsz by reflexivity.
  all: destruct (reducing_finishes rs _ Hp2) as [n2 [Hp3 Hv3]].
  all: pose proof (run_inv n2 _ (run_inv n1 _ HI1)) as HI3.
  all: pose proof (inv_frontier _ _ _ HI3) as Hcap.
  all: rewrite Hv3 in Hcap; rewrite Hv1 in Hsz.
  - exfalso. lia.
  - destruct (IH (run n2 (run n1 (step s)))) as [n3 Hn3]; [rewrite Hv3; lia|exact HI3|exact Hp3|].
    exists (S (n1 + n2 + n3)). cbn [Engine.run]. now rewrite !run_add.
Qed.

(** The batch loop of [crawl_site] reaches line 225. *)
Lemma loop_terminates (start_url : string) :
  exists n, point (run n (init start_url)) = Returned.
Proof.
  apply (loop_finishes _ _ (Nat.le_refl _)); [apply init_inv|reflexivity].
Qed.

(** Once at line 225 the state no longer changes, so more fuel gives the
    same result. *)
Lemma run_stable (n n' : nat) (s : State) :
  point (run n s) = Returned -> (n <= n')%nat -> run n' s = run n s.
Proof.
  intros H Hle. replace n' with (n + (n' - n))%nat by lia.
  rewrite run_add. now apply run_returned.
Qed.

Lemma reachable_inv (start_url : string) (n : nat) : Inv (run n (init start_url)).
Proof. apply run_inv, init_inv. Qed.

(** The visited set only grows, and the log of fetches only gets longer. *)
Lemma visited_grows (s : State) :
  visited s ⊆ visited (step s) /\ exists calls, fetched (step s) = (fetched s ++ calls)%list.
Proof.
  assert (Hsame : exists calls, fetched s = (fetched s ++ calls)%list)
    by (exists []; now rewrite app_nil_r).
  unfold Engine.step. destruct (point s) as [|batch|rs|ls rs|].
  - destruct (_ && _); fields; (split; [set_solver|exact Hsame]).
  - destruct (_ && _).
    + destruct (bool_decide (_ ∉ _)); fields; (split; [set_solver|exact Hsame]).
    + destruct (bool_decide (batch = ∅)); fields.
      * split; [set_solver|exact Hsame].
      * split; [set_solver|now eexists].
  - destruct rs as [|[[p|] l] rs]; fields; (split; [set_solver|exact Hsame]).
  - destruct ls as [|l ls]; [|destruct (_ && _)]; fields;
      (split; [set_solver|exact Hsame]).
  - split; [set_solver|exact Hsame].
Qed.

(** *** The page budget *)

(** A batch is drawn, and so dispatched, only below the budget. *)
Lemma no_batch_once_budget_reached (start_url : string) (n : nat) :
  let s := run n (init start_url) in
  (max_pages <= pages_crawled (stats s) -> point s = LoopTest ->
     point (step s) = Returned)
  /\ (forall batch, point s = Drawing batch -> pages_crawled (stats s) < max_pages)
  /\ (fetched (step s) <> fetched s -> pages_crawled (stats s) < max_pages).
Proof.
  intros s. pose proof (reachable_inv start_url n) as HI. fold s in HI.
  split; [|split].
  - intros Hle Hp. unfold Engine.step. rewrite Hp.
    rewrite (proj2 (Z.ltb_ge _ _) Hle), andb_false_r. reflexivity.
  - apply (inv_draw _ _ _ HI).
  - intros Hf. destruct (point s) as [|batch|rs|ls rs|] eqn:Hp.
    + exfalso. apply Hf. unfold Engine.step. rewrite Hp. now destruct (_ && _).
    + now apply (inv_draw _ _ _ HI batch).
    + exfalso. apply Hf. unfold Engine.step. rewrite Hp.
      now destruct rs as [|[[p|] l] rs].
    + exfalso. apply Hf. unfold Engine.step. rewrite Hp.
      destruct ls; [reflexivity|]. now destruct (_ && _).
    + exfalso. apply Hf. now rewrite step_returned.
Qed.

(** The count of crawled pages stays below the budget plus the batch size:
    the last batch is dispatched whole. *)
Lemma pages_crawled_bound (start_url : string) (n : nat) :
  0 < max_pages -> 0 < concurrency ->
  pages_crawled (stats (run n (init start_url))) < max_pages + concurrency.
Proof.
  intros Hm Hc. pose proof (inv_budget _ _ _ (reachable_inv start_url n)) as H.
  unfold crawl_cap in H. lia.
Qed.

(** *** The claims about every observation point *)

(** C2: at every observation point the visited and the pending set are
    disjoint, no URL occurs twice in the log of fetches, and the visited
    URLs are the fetched ones together with the batch being drawn. *)
Theorem no_url_fetched_twice (start_url : string) (n : nat) :
  let s := run n (init start_url) in
  visited s ## to_visit s
  /\ NoDup (map fst (fetched s))
  /\ visited s = list_to_set (map fst (fetched s)) ∪ batch_of (point s).
Proof.
  intros s. pose proof (reachable_inv start_url n) as HI. fold s in HI.
  split; [apply (inv_disjoint _ _ _ HI)|].
  split; [apply (inv_nodup _ _ _ HI)|apply (inv_visited _ _ _ HI)].
Qed.

(** C4: for a positive budget and a positive batch size, the pending and
    the visited URLs together stay below twice the budget plus the batch
    size (indeed within twice the budget), and a step puts a new URL into
    the pending set only when they were below twice the budget and the URL
    was not visited. *)
Theorem frontier_bounded (start_url : string) (n : nat) :
  0 < max_pages -> 0 < concurrency ->
  let s := run n (init start_url) in
  Z.of_nat (size (to_visit s)) + Z.of_nat (size (visited s))
    < max_pages * 2 + concurrency
  /\ Z.of_nat (size (to_visit s)) + Z.of_nat (size (visited s)) <= max_pages * 2
  /\ forall u, u ∈ to_visit (step s) -> u ∉ to_visit s ->
       Z.of_nat (size (to_visit s)) + Z.of_nat (size (visited s)) < max_pages * 2
       /\ u ∉ visited s.
Proof.
  intros Hm Hc s. pose proof (reachable_inv start_url n) as HI. fold s in HI.
  pose proof (inv_frontier _ _ _ HI) as Hf. unfold frontier_cap in Hf.
  split; [lia|]. split; [lia|].
  intros u Hin Hnot. unfold Engine.step in Hin.
  destruct (point s) as [|batch|rs|ls rs|] eqn:Hp.
  - exfalso. apply Hnot. now destruct (_ && _).
  - exfalso. apply Hnot. destruct (_ && _).
    + destruct (bool_decide (_ ∉ _)); fields; set_solver.
    + now destruct (bool_decide (batch = ∅)).
  - exfalso. apply Hnot. now destruct rs as [|[[p|] l] rs].
  - destruct ls as [|link more]; [now exfalso|].
    destruct (bool_decide (link ∉ visited s)
              && (Z.of_nat (size (to_visit s)) + Z.of_nat (size (visited s))
                  <? max_pages * 2)) eqn:Hcnd; [|now exfalso].
    apply andb_true_iff in Hcnd as [Hnv Hlt]. apply Z.ltb_lt in Hlt.
    apply bool_decide_eq_true in Hnv. fields.
    split; [exact Hlt|]. set_solver.
  - now exfalso.
Qed.

(** C10: at every observation point [pages_failed] is 0 and the fetches
    that returned no page are the ones counted by [pages_filtered], once
    their response is reduced; so the statistics the loop returns have
    [pages_failed = 0], [pages_filtered] the number of fetches without a
    page and [pages_crawled] the number of fetches with one. *)
Theorem pages_failed_never_counted (start_url : string) (n : nat) :
  let s := run n (init start_url) in
  pages_failed (stats s) = 0
  /\ pages_filtered (stats s) + Z.of_nat (absent_in (pending (point s)))
     = Z.of_nat (absent_in (map snd (fetched s)))
  /\ match crawl_loop E domain max_pages concurrency n start_url with
     | Some (_, final) =>
         pages_failed final = 0
         /\ pages_filtered final = Z.of_nat (absent_in (map snd (fetched s)))
         /\ pages_crawled final = Z.of_nat (length (pages_of (map snd (fetched s))))
     | None => True
     end.
Proof.
  intros s. pose proof (reachable_inv start_url n) as HI. fold s in HI.
  pose proof (inv_failed _ _ _ HI) as Hfail.
  pose proof (inv_filtered _ _ _ HI) as Hfil.
  split; [exact Hfail|]. split; [exact Hfil|].
  unfold crawl_loop. fold s.
  pose proof (inv_results _ _ _ HI) as Hres.
  pose proof (inv_crawled _ _ _ HI) as Hcr.
  destruct (point s); try exact I.
  fields. rewrite pages_of_nil, app_nil_r in Hres. rewrite absent_in_nil in Hfil.
  split; [exact Hfail|]. split; [lia|]. now rewrite <- Hres.
Qed.

End Run.

(** *** Whole runs *)

(** The environment of a site follows Python's contract for sets. *)
Lemma site_env_ok (site : Site) : env_ok (site_env site).
Proof.
  split; intros now s; [|reflexivity].
  intros Hne. cbn [site_env set_pop]. unfold pop_first.
  destruct (elements s) as [|u l] eqn:He.
  - apply elements_empty_iff in He. apply leibniz_equiv in He. contradiction.
  - apply elem_of_elements. rewrite He. left.
Qed.

(** C3: for every environment, seed, budget and batch size, some amount of
    fuel makes [crawl_site] end, and any larger amount gives the same
    result. *)
Theorem crawl_site_terminates (E : Env) (start_url : string)
    (max_pages concurrency : Z) :
  env_ok E ->
  exists fuel r, forall fuel', (fuel <= fuel')%nat ->
    crawl_site E fuel' start_url max_pages concurrency = Some r.
Proof.
  intros E_ok. unfold crawl_site.
  destruct (get_domain start_url) as [domain|e].
  - destruct (loop_terminates E E_ok domain max_pages concurrency start_url) as [n Hn].
    eexists n, _. intros fuel' Hle. unfold crawl_loop.
    rewrite (run_stable E domain max_pages concurrency n fuel' _ Hn Hle), Hn.
    reflexivity.
  - exists O, (Raise e). reflexivity.
Qed.

(** Past line 174 nothing makes [crawl_site] raise: whatever the fetches
    return, the run goes on to line 225. *)
Lemma crawl_site_raises_only_at_start (E : Env) (fuel : nat) (start_url : string)
    (max_pages concurrency : Z) (e : exn) :
  crawl_site E fuel start_url max_pages concurrency = Some (Raise e) ->
  get_domain start_url = Raise e.
Proof.
  unfold crawl_site. destruct (get_domain start_url) as [domain|e'].
  - now destruct (crawl_loop _ _ _ _ _ _).
  - now intros [= ->].
Qed.

(** C6: a run (the seed has a domain) ends, whatever its fetches return,
    and the command exits with code 1 exactly when the list of results is
    empty, that is when no fetch of the run returned a page, that is when
    [pages_crawled] is 0; otherwise the results are exported. *)
Theorem crawl_fails_iff_no_page (E : Env) (url domain : string)
    (max_pages concurrency : Z) :
  env_ok E ->
  get_domain (sanitize_url url) = Ok domain ->
  exists fuel results final, forall fuel', (fuel <= fuel')%nat ->
    let log := fetched (run E domain max_pages concurrency fuel'
                          (init (sanitize_url url))) in
    crawl_site E fuel' (sanitize_url url) max_pages concurrency
      = Some (Ok (results, final))
    /\ results = pages_of (map snd log)
    /\ pages_crawled final = Z.of_nat (length results)
    /\ (crawl E fuel' url max_pages concurrency = Some (Ok (Exit 1))
        <-> results = [])
    /\ (crawl E fuel' url max_pages concurrency = Some (Ok (Exit 1))
        <-> pages_crawled final = 0)
    /\ (crawl E fuel' url max_pages concurrency = Some (Ok (Exit 1))
        \/ crawl E fuel' url max_pages concurrency
             = Some (Ok (Exported results final))).
Proof.
  intros E_ok Hd.
  destruct (loop_terminates E E_ok domain max_pages concurrency (sanitize_url url))
    as [n Hn].
  set (s := run E domain max_pages concurrency n (init (sanitize_url url))) in *.
  exists n, (results s), (stats s). intros fuel' Hle log.
  assert (Hs : run E domain max_pages concurrency fuel' (init (sanitize_url url)) = s)
    by (now apply run_stable).
  assert (Hsite : crawl_site E fuel' (sanitize_url url) max_pages concurrency
                  = Some (Ok (results s, stats s))).
  { unfold crawl_site, crawl_loop. now rewrite Hd, Hs, Hn. }
  pose proof (reachable_inv E E_ok domain max_pages concurrency (sanitize_url url) n)
    as HI. fold s in HI.
  pose proof (inv_results _ _ _ HI) as Hres.
  pose proof (inv_crawled _ _ _ HI) as Hcr.
  rewrite Hn in Hres. cbn [pending] in Hres. rewrite pages_of_nil, app_nil_r in Hres.
  unfold log. rewrite Hs. unfold crawl. rewrite Hd, Hsite.
  split; [reflexivity|]. split; [exact Hres|]. split; [exact Hcr|].
  destruct (results s) as [|page rest] eqn:Hr.
  - repeat split; auto.
  - cbn [length] in Hcr. repeat split; try discriminate; try lia; auto.
Qed.

(** C1, the budget overrun: with a budget of 2 and batches of 2 the hub
    page is crawled first, its three links become pending, and the next
    batch of two is crawled whole; [crawl_site] returns [pages_crawled = 3]. *)
Theorem crawl_site_exceeds_max_pages :
  exists results final,
    crawl_site (site_env hub_site) 40 "https://site.com" 2 2
      = Some (Ok (results, final))
    /\ pages_crawled final = 3
    /\ ~ pages_crawled final <= 2.
Proof.
  eexists _, _. split; [vm_compute; reflexivity|].
  split; [reflexivity|]. cbn [pages_crawled]. lia.
Qed.

(** The scenarios of the specification: a chain of three pages is crawled
    in full, two pages that link to each other are crawled once each, and a
    seed that does not connect makes the command exit with code 1. *)
Example crawl_chain :
  exists results final,
    crawl_site (site_env chain_site) 40 "https://site.com" 10 2
      = Some (Ok (results, final))
    /\ pages_crawled final = 3
    /\ map url results
       = ["https://site.com"; "https://site.com/b"; "https://site.com/c"].
Proof. eexists _, _. split; [vm_compute; reflexivity|]. now split. Qed.

Example crawl_cycle :
  exists results final,
    crawl_site (site_env cycle_site) 40 "https://site.com" 10 2
      = Some (Ok (results, final))
    /\ pages_crawled final = 2 /\ pages_filtered final = 0.
Proof. eexists _, _. split; [vm_compute; reflexivity|]. now split. Qed.

Example crawl_unreachable_seed :
  crawl (site_env []) 40 "site.com" 10 2 = Some (Ok (Exit 1)).
Proof. vm_compute. reflexivity. Qed.

(** *** The theorems at work on small sites *)

Lemma no_url_fetched_twice_witness :
  let s := run (site_env hub_site) "https://site.com" 2 2 12 (init "https://site.com") in
  visited s ## to_visit s
  /\ NoDup (map fst (fetched s))
  /\ visited s = list_to_set (map fst (fetched s)) ∪ batch_of (point s).
Proof.
  exact (no_url_fetched_twice (site_env hub_site) (site_env_ok hub_site)
           "https://site.com" 2 2 "https://site.com" 12).
Defined.

Lemma crawl_site_terminates_witness :
  exists fuel r, forall fuel', (fuel <= fuel')%nat ->
    crawl_site (site_env hub_site) fuel' "https://site.com" 2 2 = Some r.
Proof.
  exact (crawl_site_terminates (site_env hub_site) "https://site.com" 2 2
           (site_env_ok hub_site)).
Defined.

Lemma frontier_bounded_witness :
  let s := run (site_env hub_site) "https://site.com" 2 2 12 (init "https://site.com") in
  Z.of_nat (size (to_visit s)) + Z.of_nat (size (visited s)) < 2 * 2 + 2
  /\ Z.of_nat (size (to_visit s)) + Z.of_nat (size (visited s)) <= 2 * 2
  /\ forall u, u ∈ to_visit (step (site_env hub_site) "https://site.com" 2 2 s) ->
       u ∉ to_visit s ->
       Z.of_nat (size (to_visit s)) + Z.of_nat (size (visited s)) < 2 * 2
       /\ u ∉ visited s.
Proof.
  apply (frontier_bounded (site_env hub_site) (site_env_ok hub_site)
           "https://site.com" 2 2 "https://site.com" 12); lia.
Defined.

Lemma pages_failed_never_counted_witness :
  let s := run (site_env bracket_site) "https://site.com" 5 2 12
             (init "https://site.com") in
  pages_failed (stats s) = 0
  /\ pages_filtered (stats s) + Z.of_nat (absent_in (pending (point s)))
     = Z.of_nat (absent_in (map snd (fetched s)))
  /\ match crawl_loop (site_env bracket_site) "https://site.com" 5 2 12
             "https://site.com" with
     | Some (_, final) =>
         pages_failed final = 0
         /\ pages_filtered final = Z.of_nat (absent_in (map snd (fetched s)))
         /\ pages_crawled final = Z.of_nat (length (pages_of (map snd (fetched s))))
     | None => True
     end.
Proof.
  exact (pages_failed_never_counted (site_env bracket_site) (site_env_ok bracket_site)
           "https://site.com" 5 2 "https://site.com" 12).
Defined.

Lemma crawl_fails_iff_no_page_witness :
  exists fuel results final, forall fuel', (fuel <= fuel')%nat ->
    let log := fetched (run (site_env bracket_site) "https://site.com" 5 2 fuel'
                          (init (sanitize_url "Site.com/"))) in
    crawl_site (site_env bracket_site) fuel' (sanitize_url "Site.com/") 5 2
      = Some (Ok (results, final))
    /\ results = pages_of (map snd log)
    /\ pages_crawled final = Z.of_nat (length results)
    /\ (crawl (site_env bracket_site) fuel' "Site.com/" 5 2 = Some (Ok (Exit 1))
        <-> results = [])
    /\ (crawl (site_env bracket_site) fuel' "Site.com/" 5 2 = Some (Ok (Exit 1))
        <-> pages_crawled final = 0)
    /\ (crawl (site_env bracket_site) fuel' "Site.com/" 5 2 = Some (Ok (Exit 1))
        \/ crawl (site_env bracket_site) fuel' "Site.com/" 5 2
             = Some (Ok (Exported results final))).
Proof.
  apply (crawl_fails_iff_no_page (site_env bracket_site) "Site.com/"
           "https://site.com" 5 2 (site_env_ok bracket_site)).
  vm_compute. reflexivity.
Defined.

End EngineFacts.

(* ===================================================================== *)
(** ** More about strings and URLs *)
(* ===================================================================== *)

Module TextMore.
Import Text Ends TextFacts.


(** [rstrip] keeps the first character of what it leaves. *)
Lemma rstrip_first_char (chars s : string) (c : ascii) :
  first_char (rstrip chars s) = Some c -> first_char s = Some c.
Proof.
  destruct s as [|d s]; [discriminate|]. cbn [rstrip first_char].
  destruct (rstrip chars s); [destruct (char_in d chars)|]; cbn [first_char];
    congruence.
Qed.

Lemma lstrip_first_char (chars s : string) (c : ascii) :
  first_char (lstrip chars s) = Some c -> char_in c chars = false.
Proof.
  induction s as [|d s IH]; [discriminate|]. cbn [lstrip].
  destruct (char_in d chars) eqn:Hd; [exact IH|].
  cbn [first_char]. congruence.
Qed.

Lemma rstrip_last_char (chars s : string) (c : ascii) :
  last_char (rstrip chars s) = Some c -> char_in c chars = false.
Proof.
  induction s as [|d s IH]; [discriminate|]. cbn [rstrip].
  destruct (rstrip chars s) as [|e k] eqn:Hk.
  - destruct (char_in d chars) eqn:Hd; [discriminate|].
    cbn [last_char]. congruence.
  - exact IH.
Qed.

(** A string that does not start with a stripped character is left alone
    by [lstrip]. *)
Lemma lstrip_noop (chars s : string) :
  (forall c, first_char s = Some c -> char_in c chars = false) ->
  lstrip chars s = s.
Proof.
  destruct s as [|d s]; [reflexivity|]. intros H. cbn [lstrip].
  now rewrite (H d eq_refl).
Qed.

(** [strip] leaves no whitespace at either end, and stripping again
    changes nothing. *)
Lemma strip_trimmed (s : string) : trimmed (strip s) /\ strip (strip s) = strip s.
Proof.
  assert (Hf : forall c, first_char (strip s) = Some c -> char_in c whitespace = false).
  { intros c Hc. apply rstrip_first_char in Hc. now apply lstrip_first_char in Hc. }
  split; [split; [exact Hf|]|].
  - intros c. apply rstrip_last_char.
  - unfold strip at 1. rewrite (lstrip_noop _ _ Hf). unfold strip. apply rstrip_idem.
Qed.

Lemma trimmed_empty : trimmed EmptyString.
Proof. split; discriminate. Qed.

Lemma lower_app (s t : string) : lower (s ++ t) = (lower s ++ lower t)%string.
Proof.
  induction s as [|c s IH]; [reflexivity|].
  rewrite append_cons. cbn [lower]. now rewrite IH, append_cons.
Qed.

Lemma lower_slashes (n : nat) : lower (slashes n) = slashes n.
Proof. induction n as [|n IH]; [reflexivity|]. cbn [slashes lower]. now rewrite IH. Qed.

Lemma slashes_add (n m : nat) : (slashes n ++ slashes m)%string = slashes (n + m).
Proof.
  induction n as [|n IH]; [reflexivity|].
  cbn [slashes Nat.add]. now rewrite append_cons, IH.
Qed.

Lemma append_assoc' (a b c : string) : ((a ++ b) ++ c)%string = (a ++ (b ++ c))%string.
Proof.
  induction a as [|x a IH]; [reflexivity|]. now rewrite !append_cons, IH.
Qed.

(** A string [p] is a prefix of [s] exactly when [s] is [p] followed by
    something. *)
Lemma prefix_app (p s : string) :
  String.prefix p s = true -> exists t, s = (p ++ t)%string.
Proof.
  revert s. induction p as [|a p IH]; intros s H; [now exists s|].
  destruct s as [|b s]; [discriminate|]. cbn [String.prefix] in H.
  destruct (ascii_dec a b) as [->|]; [|discriminate].
  destruct (IH s H) as [t ->]. now exists t.
Qed.

Lemma prefix_app_true (p t : string) : String.prefix p (p ++ t) = true.
Proof.
  induction p as [|a p IH]; [now destruct t|].
  rewrite append_cons. cbn [String.prefix]. now destruct (ascii_dec a a).
Qed.

End TextMore.

Module UrlMore.
Import Text UrlParse Url TextFacts TextMore.

(** Letter case and trailing slashes make no difference to the normal
    form: [normalize_url] sends two URLs that differ only in those to the
    same string. *)
Theorem normalize_url_ignores_case_and_slashes (u v : string) (n : nat) :
  lower u = lower v -> normalize_url (u ++ slashes n) = normalize_url v.
Proof.
  intros H. unfold normalize_url. rewrite lower_app, lower_slashes, H.
  destruct (rstrip_decompose (lower v)) as [m Hm].
  rewrite Hm at 1. rewrite append_assoc', slashes_add.
  apply rstrip_append_slashes, rstrip_no_trailing_slash.
Qed.








(** *** Words of the exclusion list inside the host name *)

Lemma prefix_app_l (p a b : string) :
  String.prefix p a = true -> String.prefix p (a ++ b) = true.
Proof.
  intros H. apply prefix_app in H as [t ->]. rewrite append_assoc'. apply prefix_app_true.
Qed.

Lemma str_in_app_l (p a b : string) : str_in p a = true -> str_in p (a ++ b) = true.
Proof.
  induction a as [|c a IH]; cbn [str_in].
  - rewrite orb_false_r. intros H. destruct p; [|discriminate H]. now destruct b.
  - intros H. rewrite append_cons. cbn [str_in]. apply orb_true_iff in H as [H|H].
    + apply (prefix_app_l _ _ b) in H. rewrite append_cons in H. now rewrite H.
    + rewrite (IH H). apply orb_true_r.
Qed.

Lemma str_in_drop (p : string) (n : nat) :
  forall s, str_in p (drop n s) = true -> str_in p s = true.
Proof.
  induction n as [|n IH]; intros [|c s] H; try exact H.
  cbn [drop] in H. cbn [str_in]. rewrite (IH s H). apply orb_true_r.
Qed.

Lemma take_until_prefix (stops s : string) : exists b, s = (take_until stops s ++ b)%string.
Proof.
  induction s as [|c s [b IH]]; [now exists EmptyString|]. cbn [take_until].
  destruct (char_in c stops); [now exists (String c s)|].
  exists b. rewrite append_cons. now rewrite <- IH.
Qed.

Lemma lower_char_delims (c : ascii) : char_in (lower_char c) "/?#" = char_in c "/?#".
Proof. destruct c as [[] [] [] [] [] [] [] []]; reflexivity. Qed.

Lemma lower_take_until (s : string) :
  lower (take_until "/?#" s) = take_until "/?#" (lower s).
Proof.
  induction s as [|c s IH]; [reflexivity|]. cbn [take_until lower].
  rewrite lower_char_delims. destruct (char_in c "/?#"); [reflexivity|].
  cbn [lower]. now rewrite IH.
Qed.

Lemma lower_drop (n : nat) : forall s, lower (drop n s) = drop n (lower s).
Proof. induction n as [|n IH]; intros [|c s]; try reflexivity. cbn [drop lower]. apply IH. Qed.

(** The network location [urlsplit] finds is cut out of the URL. *)
Lemma urlsplit_netloc (link : string) (r : SplitResult) :
  urlsplit link = Ok r ->
  netloc r = EmptyString
  \/ exists k,
       netloc r = take_until "/?#"
                    (drop 2 (drop k (filter_chars (fun c => negb (unsafe_byte c))
                                                  (lstrip_c0 link)))).
Proof.
  unfold urlsplit.
  generalize (filter_chars (fun c => negb (unsafe_byte c)) (lstrip_c0 link)). intros u.
  assert (H : forall sch k,
            (if String.eqb (take 2 (drop k u)) "//"
             then
               let loc := take_until "/?#" (drop 2 (drop k u)) in
               if (str_in "[" loc && negb (str_in "]" loc))
                  || (str_in "]" loc && negb (str_in "[" loc))
               then Raise ValueError
               else Ok (mkSplit sch loc)
             else Ok (mkSplit sch EmptyString)) = Ok r ->
            netloc r = EmptyString
            \/ exists k, netloc r = take_until "/?#" (drop 2 (drop k u))).
  { intros sch k. destruct (String.eqb _ _); [|intros [= <-]; now left].
    cbv zeta. destruct (_ || _); [discriminate|]. intros [= <-]. right. now exists k. }
  destruct (index 0 ":" u) as [[|i]|]; [apply (H _ 0%nat)| |apply (H _ 0%nat)].
  destruct (_ && _); [apply (H _ (S (S i)))|apply (H _ 0%nat)].
Qed.

(** A word of the exclusion list inside the host name shuts the whole site
    out: no link to such a host is eligible, whatever its path. *)
Theorem excluded_word_in_host (link domain word : string) (r : SplitResult) :
  filter_chars (fun c => negb (unsafe_byte c)) (lstrip_c0 link) = link ->
  urlsplit link = Ok r ->
  In word EXCLUDED_PATHS ->
  str_in word (lower (netloc r)) = true ->
  is_valid_link link domain <> Ok true.
Proof.
  intros Hclean Hr Hw Hin.
  assert (Hlink : str_in word (lower link) = true).
  { destruct (urlsplit_netloc link r Hr) as [Hn|[k Hn]]; rewrite Hn in Hin.
    - destruct word; [now destruct (lower link)|discriminate Hin].
    - rewrite Hclean, lower_take_until, !lower_drop in Hin.
      destruct (take_until_prefix "/?#" (drop 2 (drop k (lower link)))) as [b Hb].
      apply (str_in_app_l _ _ b) in Hin. rewrite <- Hb in Hin.
      now apply str_in_drop, str_in_drop in Hin. }
  assert (Hex : existsb (fun path => str_in path (lower link)) EXCLUDED_PATHS = true).
  { apply existsb_exists. now exists word. }
  unfold is_valid_link. destruct (get_domain link) as [d|e]; cbn [bind]; [|discriminate].
  destruct (negb _); [discriminate|].
  destruct (_ || _); [discriminate|].
  destruct (PAGINATION_PATTERNS_search link); [discriminate|].
  cbv zeta. destruct (existsb _ EXCLUDED_EXTENSIONS); [discriminate|].
  rewrite Hex. discriminate.
Qed.

End UrlMore.

(* ===================================================================== *)
(** ** More about the page fetcher *)
(* ===================================================================== *)

Module FetchMore.
Import Text Ends Url Fetch TextFacts TextMore.

Lemma normalize_url_fixed (u : string) : normalize_url (normalize_url u) = normalize_url u.
Proof.
  unfold normalize_url. now rewrite lower_rstrip_slash, lower_idem, rstrip_idem.
Qed.

(** The loop over the anchors keeps only eligible, normalised links. *)
Lemma collect_links_eligible (E : Env) (u d : string) (anchors : list string) :
  forall acc links,
    collect_links E u d anchors acc = Ok links ->
    Forall (fun l => is_valid_link l d = Ok true /\ normalize_url l = l) acc ->
    Forall (fun l => is_valid_link l d = Ok true /\ normalize_url l = l) links
    /\ (length links <= length acc + length anchors)%nat.
Proof.
  induction anchors as [|href rest IH]; intros acc links H Hacc.
  - cbn [collect_links] in H. injection H as <-. split; [exact Hacc|]. cbn [length]. lia.
  - cbn [collect_links] in H.
    destruct (urljoin E u href) as [joined|e]; cbn [bind] in H; [|discriminate].
    destruct (is_valid_link (normalize_url joined) d) as [valid|e] eqn:Hv;
      cbn [bind] in H; [|discriminate].
    destruct (IH _ _ H) as [Hl Hn].
    + destruct valid; [|exact Hacc].
      apply Forall_app. split; [exact Hacc|].
      constructor; [|constructor]. split; [exact Hv|apply normalize_url_fixed].
    + split; [exact Hl|]. cbn [length].
      destruct valid; [rewrite length_app in Hn; cbn [length] in Hn|]; lia.
Qed.

Lemma fetch_page_links_ok (E : Env) (now : nat) (u d : string) :
  Forall (fun l => is_valid_link l d = Ok true /\ normalize_url l = l)
         (snd (fetch_page E now u d)).
Proof.
  unfold fetch_page, fetch_page_try.
  destruct (client_get E now u) as [r|e]; cbn [bind]; [|destruct e; constructor].
  destruct (negb _); [constructor|].
  destruct (BeautifulSoup E (resp_text r)) as [soup|e]; cbn [bind];
    [|destruct e; constructor].
  destruct (collect_links E u d (soup_anchor_hrefs soup) []) as [links|e] eqn:Hl;
    cbn [bind]; [|destruct e; constructor].
  cbn [snd]. now apply (collect_links_eligible E u d _ [] links Hl).
Qed.

(** Every link [fetch_page] returns passes [is_valid_link] for the domain
    and is in normal form, and there are no more links than anchors. *)
Theorem fetch_page_links_eligible (E : Env) (now : nat) (u d : string) :
  Forall (fun l => is_valid_link l d = Ok true /\ normalize_url l = l)
         (snd (fetch_page E now u d))
  /\ match client_get E now u with
     | Ok r =>
         match BeautifulSoup E (resp_text r) with
         | Ok soup =>
             (length (snd (fetch_page E now u d)) <= length (soup_anchor_hrefs soup))%nat
         | Raise _ => snd (fetch_page E now u d) = []
         end
     | Raise _ => snd (fetch_page E now u d) = []
     end.
Proof.
  split; [apply fetch_page_links_ok|].
  unfold fetch_page, fetch_page_try.
  destruct (client_get E now u) as [r|e]; cbn [bind]; [|now destruct e].
  destruct (BeautifulSoup E (resp_text r)) as [soup|e] eqn:Hs.
  - destruct (negb _); [cbn [snd length]; lia|]. cbn [bind].
    destruct (collect_links E u d (soup_anchor_hrefs soup) []) as [links|e] eqn:Hl;
      cbn [bind]; [|destruct e; cbn [snd length]; lia].
    cbn [snd]. destruct (collect_links_eligible E u d _ [] links Hl) as [_ H];
      [constructor|]. exact H.
  - destruct (negb _); [reflexivity|]. cbn [bind]. now destruct e.
Qed.

(** The record [fetch_page] returns is filed under the URL asked for. *)
Lemma fetch_page_url (E : Env) (now : nat) (u d : string) (p : PageData)
    (links : list string) :
  fetch_page E now u d = (Some p, links) -> url p = u.
Proof.
  unfold fetch_page, fetch_page_try.
  destruct (client_get E now u) as [r|e]; cbn [bind]; [|now destruct e].
  destruct (negb _); [discriminate|].
  destruct (BeautifulSoup E (resp_text r)) as [soup|e]; cbn [bind]; [|now destruct e].
  destruct (collect_links E u d (soup_anchor_hrefs soup) []) as [ls|e];
    cbn [bind]; [|now destruct e].
  intros [= <- _].
  destruct (soup_meta_description_content soup) as [c|]; [|reflexivity].
  now destruct (nonempty c).
Qed.

(** The title and the description of a record have no whitespace at
    either end. *)
Theorem fetch_page_text_trimmed (E : Env) (now : nat) (u d : string) :
  match fetch_page E now u d with
  | (Some p, _) => trimmed (title p) /\ trimmed (meta_description p)
  | (None, _) => True
  end.
Proof.
  unfold fetch_page, fetch_page_try.
  destruct (client_get E now u) as [r|e]; cbn [bind]; [|now destruct e].
  destruct (negb _); [exact I|].
  destruct (BeautifulSoup E (resp_text r)) as [soup|e]; cbn [bind]; [|now destruct e].
  destruct (collect_links E u d (soup_anchor_hrefs soup) []) as [ls|e];
    cbn [bind]; [|now destruct e].
  assert (Ht : trimmed match soup_title_string soup with
                       | Some t => if nonempty t then strip t else ""
                       | None => ""
                       end).
  { destruct (soup_title_string soup) as [t|]; [|apply trimmed_empty].
    destruct (nonempty t); [apply strip_trimmed|apply trimmed_empty]. }
  destruct (soup_meta_description_content soup) as [c|];
    [destruct (nonempty c)|]; cbn [title meta_description]; split;
    try exact Ht; try apply trimmed_empty. apply strip_trimmed.
Qed.

End FetchMore.

(* ===================================================================== *)
(** ** More about the crawl engine *)
(* ===================================================================== *)

Module CrawlFacts.
Import Text Url Fetch Engine Sites Provenance EngineFacts FetchMore.

#[local] Set Warnings "-clear-no-such-hyp".

Lemma links_in_app (rs1 rs2 : list FetchResult) :
  links_in (rs1 ++ rs2) = links_in rs1 + links_in rs2.
Proof.
  induction rs1 as [|[[p|] l] rs1 IH]; cbn [links_in app]; lia.
Qed.

Section More.

Variable E : Env.
Hypothesis E_ok : env_ok E.
Variable domain : string.
Variables max_pages concurrency : Z.
Variable start_url : string.

Abbreviation step := (Engine.step E domain max_pages concurrency).
Abbreviation run := (Engine.run E domain max_pages concurrency).
Abbreviation Inv := (Engine.Inv max_pages concurrency).
Abbreviation Prov := (Provenance.Prov E domain max_pages concurrency start_url).

Ltac fields :=
  cbn [visited to_visit results stats point clock fetched goto init
       pages_crawled pages_failed pages_filtered total_links_found
       batch_of pending adding_of] in *.

Lemma init_prov : Prov (init start_url).
Proof.
  constructor; fields.
  - constructor.
  - constructor.
  - constructor.
  - intros u Hu. left. set_solver.
  - reflexivity.
  - discriminate.
Qed.

Lemma step_prov (s : State) : Prov s -> Prov (step s).
Proof.
  intros HP. pose proof HP as [Hlog Hpend Hadd Hknown Hlinks Hexit].
  unfold Engine.step.
  destruct (point s) as [|batch|[|[[page_data|] links] rest]|[|link more] rest|] eqn:Hp;
    fields.
  - destruct (bool_decide (to_visit s ≠ ∅) && (pages_crawled (stats s) <? max_pages))
      eqn:Hc; constructor; fields; try assumption; try discriminate.
    intros _. apply andb_false_iff in Hc as [Hc|Hc].
    + left. apply bool_decide_eq_false in Hc. now apply dec_stable.
    + right. left. now apply Z.ltb_ge.
  - destruct (bool_decide (to_visit s ≠ ∅) && (Z.of_nat (size batch) <? concurrency))
      eqn:Hc.
    + apply andb_true_iff in Hc as [Hne _]. apply bool_decide_eq_true in Hne.
      pose proof (proj1 E_ok (clock s) (to_visit s) Hne) as Hu.
      destruct (bool_decide (_ ∉ _)); constructor; fields; try assumption;
        try discriminate; intros u Hin; apply Hknown; set_solver.
    + destruct (bool_decide (batch = ∅)) eqn:Hb.
      * constructor; fields; try assumption.
        intros _. apply bool_decide_eq_true in Hb. subst batch.
        apply andb_false_iff in Hc as [Hc|Hc].
        -- left. apply bool_decide_eq_false in Hc. now apply dec_stable.
        -- right. right. apply Z.ltb_ge in Hc. rewrite size_empty in Hc. lia.
      * constructor; fields; try assumption; try discriminate.
        -- apply Forall_app. split; [exact Hlog|].
           apply Forall_map. apply Forall_forall. intros u _. now exists (clock s).
        -- rewrite map_map. apply Forall_map. apply Forall_forall.
           intros u _. exists u. now exists (clock s).
        -- rewrite map_app, links_in_app. cbn [links_in] in Hlinks. lia.
  - constructor; fields; try assumption; discriminate.
  - apply Forall_cons_1 in Hpend as [[u [now Hr]] Hpend].
    constructor; fields; try assumption; try discriminate.
    + pose proof (fetch_page_links_ok E now u domain) as Hel.
      rewrite <- Hr in Hel. cbn [snd] in Hel.
      eapply Forall_impl; [exact Hel|]. now intros l [Hl _].
    + cbn [links_in] in Hlinks. lia.
  - apply Forall_cons_1 in Hpend as [_ Hpend].
    constructor; fields; try assumption; discriminate.
  - constructor; fields; try assumption; discriminate.
  - apply Forall_cons_1 in Hadd as [Hl Hadd].
    destruct (_ && _); constructor; fields; try assumption; try discriminate.
    intros u Hu. apply elem_of_union in Hu as [Hu|Hu]; [|apply Hknown; set_solver].
    apply elem_of_union in Hu as [Hu|Hu]; [apply Hknown; set_solver|].
    apply elem_of_singleton in Hu. subst u. now right.
  - exact HP.
Qed.

Lemma run_prov (n : nat) (s : State) : Prov s -> Prov (run n s).
Proof.
  revert s. induction n as [|n IH]; intros s HP; [exact HP|].
  cbn [Engine.run]. apply IH, step_prov, HP.
Qed.

Lemma reachable_prov (n : nat) : Prov (run n (init start_url)).
Proof. apply run_prov, init_prov. Qed.

(** The successful fetches of a log, read as URLs, lie within its URLs in
    the same order. *)
Lemma pages_sublist (log : list (string * FetchResult)) :
  Forall (fun c => fetched_by E domain (fst c) (snd c)) log ->
  map url (pages_of (map snd log)) `sublist_of` map fst log.
Proof.
  induction 1 as [|[u [[p|] l]] log [now Hr] _ IH]; cbn [map fst snd] in *.
  - constructor.
  - rewrite pages_of_some. cbn [map].
    rewrite (fetch_page_url E now u domain p l (eq_sym Hr)).
    now apply sublist_skip.
  - rewrite pages_of_none. now apply sublist_cons.
Qed.

(** The crawl stays on the site: every URL handed to [fetch_page] is the
    seed, or a link the filter let through, so a URL of the same domain
    without query string or fragment. *)
Theorem crawl_stays_on_domain (n : nat) :
  Forall (fun u => u = start_url
                   \/ (is_valid_link u domain = Ok true
                       /\ get_domain u = Ok domain
                       /\ str_in "?" u = false /\ str_in "#" u = false))
         (map fst (fetched (run n (init start_url)))).
Proof.
  pose proof (reachable_prov n) as HP.
  pose proof (reachable_inv E E_ok domain max_pages concurrency start_url n) as HI.
  apply Forall_forall. intros u Hu.
  destruct (prov_known _ _ _ _ _ _ HP u) as [Hs|He].
  { rewrite (inv_visited _ _ _ HI). set_solver. }
  - now left.
  - right. split; [exact He|]. unfold eligible, is_valid_link in He.
    destruct (get_domain u) as [d|e]; cbn [bind] in He; [|discriminate].
    destruct (String.eqb d domain) eqn:Hd; cbn [negb] in He; [|discriminate].
    apply String.eqb_eq in Hd. subst d.
    destruct (str_in "#" u); [discriminate|].
    destruct (str_in "?" u); [discriminate|]. auto.
Qed.

(** No page is recorded twice: the URLs of the results are pairwise
    distinct, and each of them has been visited. *)
Theorem results_distinct (n : nat) :
  let s := run n (init start_url) in
  NoDup (map url (results s)) /\ Forall (fun p => url p ∈ visited s) (results s).
Proof.
  intros s. pose proof (reachable_prov n) as HP. fold s in HP.
  pose proof (reachable_inv E E_ok domain max_pages concurrency start_url n) as HI.
  fold s in HI.
  pose proof (pages_sublist _ (prov_log _ _ _ _ _ _ HP)) as Hsub.
  rewrite <- (inv_results _ _ _ HI), map_app in Hsub.
  assert (Hres : map url (results s) `sublist_of` map fst (fetched s)).
  { etransitivity; [|exact Hsub]. apply sublist_inserts_r. reflexivity. }
  split.
  - eapply sublist_NoDup; [|exact Hres]. apply (inv_nodup _ _ _ HI).
  - apply Forall_forall. intros p Hp.
    rewrite (inv_visited _ _ _ HI). apply elem_of_union. left.
    apply elem_of_list_to_set. apply (sublist_subseteq _ _ Hres).
    now apply list_elem_of_fmap_2.
Qed.

(** [total_links_found] is the number of links, repetitions included, that
    the fetches of the reduced pages returned; the statistics the loop
    returns count the links of all pages of the run. *)
Theorem total_links_counted (n : nat) :
  let s := run n (init start_url) in
  total_links_found (stats s) + links_in (pending (point s))
    = links_in (map snd (fetched s))
  /\ match crawl_loop E domain max_pages concurrency n start_url with
     | Some (_, final) => total_links_found final = links_in (map snd (fetched s))
     | None => True
     end.
Proof.
  intros s. pose proof (prov_links _ _ _ _ _ _ (reachable_prov n)) as H. fold s in H.
  split; [exact H|]. unfold crawl_loop. fold s.
  destruct (point s); try exact I. fields. cbn [links_in] in H. lia.
Qed.


(** A run makes at most [max(1, 2 * max_pages)] requests. *)
Theorem requests_bounded (n : nat) :
  Z.of_nat (length (fetched (run n (init start_url)))) <= Z.max 1 (max_pages * 2).
Proof.
  pose proof (reachable_inv E E_ok domain max_pages concurrency start_url n) as HI.
  pose proof (inv_frontier _ _ _ HI) as Hf. unfold frontier_cap in Hf.
  pose proof (size_list_to_set (C:=gset string) _ (inv_nodup _ _ _ HI)) as Hsz.
  rewrite length_map in Hsz.
  assert (size (list_to_set (C:=gset string) (map fst (fetched (run n (init start_url)))))
          <= size (visited (run n (init start_url))))%nat.
  { apply subseteq_size. rewrite (inv_visited _ _ _ HI). set_solver. }
  lia.
Qed.


Lemma log_extends (n : nat) (s : State) :
  exists calls, fetched (run n s) = (fetched s ++ calls)%list.
Proof.
  revert s. induction n as [|n IH]; intros s.
  - exists []. now rewrite app_nil_r.
  - cbn [Engine.run]. destruct (IH (step s)) as [c2 H2].
    destruct (visited_grows E E_ok domain max_pages concurrency s) as [_ [c1 H1]].
    exists (c1 ++ c2)%list. now rewrite H2, H1, app_assoc.
Qed.

(** With a positive budget and batch size the first request of a run is
    for the seed: from the third transition on, the log of fetches starts
    with it. *)
Theorem seed_fetched_first (n : nat) :
  0 < max_pages -> 0 < concurrency -> (3 <= n)%nat ->
  exists now rest,
    fetched (run n (init start_url))
    = (start_url, fetch_page E now start_url domain) :: rest.
Proof.
  intros Hm Hc Hn.
  assert (H3 : fetched (run 3 (init start_url))
               = [(start_url, fetch_page E 2 start_url domain)]).
  { cbn [Engine.run]. unfold Engine.step at 3. fields.
    rewrite (bool_decide_eq_true_2 _ (non_empty_singleton_L (C:=gset string) start_url)).
    rewrite (proj2 (Z.ltb_lt 0 max_pages) Hm). cbn [andb].
    unfold Engine.step at 2. fields.
    rewrite (bool_decide_eq_true_2 _ (non_empty_singleton_L (C:=gset string) start_url)).
    rewrite size_empty. change (Z.of_nat 0) with 0.
    rewrite (proj2 (Z.ltb_lt 0 concurrency) Hc). cbn [andb].
    pose proof (proj1 E_ok 1%nat {[start_url]}
                  (non_empty_singleton_L (C:=gset string) start_url)) as Hu.
    apply elem_of_singleton in Hu. rewrite Hu.
    rewrite bool_decide_eq_true_2 by set_solver.
    unfold Engine.step. fields.
    rewrite difference_diag_L, !(left_id_L (∅ : gset string) (∪)).
    rewrite (bool_decide_eq_false_2 (∅ ≠ ∅)) by (intros H; now apply H).
    cbn [andb].
    rewrite (bool_decide_eq_false_2 _ (non_empty_singleton_L (C:=gset string) start_url)).
    fields.
    pose proof (proj2 E_ok 2%nat {[start_url]}) as Hperm.
    rewrite elements_singleton in Hperm. apply Permutation_singleton_r in Hperm.
    now rewrite Hperm. }
  replace n with (3 + (n - 3))%nat by lia. rewrite run_add.
  destruct (log_extends (n - 3) (run 3 (init start_url))) as [calls Hcalls].
  rewrite Hcalls, H3. now eexists _, _.
Qed.

Lemma no_request_without_budget (n : nat) :
  max_pages <= 0 \/ concurrency <= 0 -> (2 <= n)%nat ->
  crawl_loop E domain max_pages concurrency n start_url
    = Some ([], {| pages_crawled := 0; pages_failed := 0;
                   pages_filtered := 0; total_links_found := 0 |})
  /\ fetched (run n (init start_url)) = [].
Proof.
  intros Hz Hn.
  assert (H2 : point (run 2 (init start_url)) = Returned
               /\ results (run 2 (init start_url)) = []
               /\ stats (run 2 (init start_url)) = stats (init start_url)
               /\ fetched (run 2 (init start_url)) = []).
  { cbn [Engine.run].
    pose proof (bool_decide_eq_true_2 _
                  (non_empty_singleton_L (C:=gset string) start_url)) as Hne.
    destruct (Z.ltb_spec 0 max_pages) as [Hlt|Hge].
    - assert (H1 : step (init start_url) = goto (Drawing ∅) (init start_url)).
      { unfold Engine.step. fields.
        now rewrite Hne, (proj2 (Z.ltb_lt 0 max_pages) Hlt). }
      rewrite H1. unfold Engine.step. fields. rewrite size_empty.
      assert (Hcc : (0 <? concurrency) = false) by (apply Z.ltb_ge; lia).
      change (Z.of_nat 0) with 0. rewrite Hcc, andb_false_r.
      rewrite bool_decide_eq_true_2 by reflexivity. now fields.
    - assert (H1 : step (init start_url) = goto Returned (init start_url)).
      { unfold Engine.step. fields.
        now rewrite (proj2 (Z.ltb_ge 0 max_pages) Hge), andb_false_r. }
      rewrite H1. rewrite step_returned by reflexivity. now fields. }
  destruct H2 as [Hp [Hr [Hs Hf]]].
  unfold crawl_loop.
  rewrite (run_stable E domain max_pages concurrency 2 n _ Hp Hn), Hp, Hr, Hs, Hf.
  now split.
Qed.

End More.

(** With a budget or a batch size that is not positive the loop returns
    at once: no request is made, [crawl_site] returns no result and zero
    statistics, and the command exits with code 1 whatever the site
    serves. *)
Theorem crawl_exits_without_budget (E : Env) (fuel : nat) (url domain : string)
    (max_pages concurrency : Z) :
  get_domain (sanitize_url url) = Ok domain ->
  max_pages <= 0 \/ concurrency <= 0 -> (2 <= fuel)%nat ->
  fetched (run E domain max_pages concurrency fuel (init (sanitize_url url))) = []
  /\ crawl_site E fuel (sanitize_url url) max_pages concurrency
     = Some (Ok ([], {| pages_crawled := 0; pages_failed := 0;
                        pages_filtered := 0; total_links_found := 0 |}))
  /\ crawl E fuel url max_pages concurrency = Some (Ok (Exit 1)).
Proof.
  intros Hd Hz Hf.
  destruct (no_request_without_budget E domain max_pages concurrency
              (sanitize_url url) fuel Hz Hf) as [Hloop Hlog].
  split; [exact Hlog|].
  assert (Hsite : crawl_site E fuel (sanitize_url url) max_pages concurrency
                  = Some (Ok ([], {| pages_crawled := 0; pages_failed := 0;
                                     pages_filtered := 0; total_links_found := 0 |}))).
  { unfold crawl_site. now rewrite Hd, Hloop. }
  split; [exact Hsite|]. unfold crawl. now rewrite Hd, Hsite.
Qed.

End CrawlFacts.

(* ===================================================================== *)
(** ** The export of the results *)
(* ===================================================================== *)

Module ExportFacts.
Import Text Fetch CsvExport TextFacts TextMore.

#[local] Set Warnings "-clear-no-such-hyp".
Local Open Scope nat_scope.

(** *** Numbers as text *)

Lemma string_of_uint_digits (d : Decimal.uint) :
  all_chars is_digit (NilEmpty.string_of_uint d) = true.
Proof. induction d; cbn [NilEmpty.string_of_uint all_chars]; auto. Qed.

Lemma to_uint_nonnil (n : nat) : Nat.to_uint n <> Decimal.Nil.
Proof.
  intros H. pose proof (Unsigned.of_to n) as Hn. rewrite H in Hn.
  cbn in Hn. subst n. discriminate H.
Qed.

Lemma str_of_nat_digits (n : nat) : all_chars is_digit (str_of_nat n) = true.
Proof.
  unfold str_of_nat, NilZero.string_of_uint.
  destruct (Nat.to_uint n); try reflexivity; apply string_of_uint_digits.
Qed.

(** [int(str(n)) = n]. *)
Lemma int_of_str_of_nat (n : nat) : int_of_str (str_of_nat n) = Ok n.
Proof.
  unfold int_of_str, str_of_nat.
  rewrite NilZero.usu by apply to_uint_nonnil. now rewrite Unsigned.of_to.
Qed.

Lemma str_of_nat_inj (n m : nat) : str_of_nat n = str_of_nat m -> n = m.
Proof.
  intros H. pose proof (int_of_str_of_nat n) as Hn. rewrite H, int_of_str_of_nat in Hn.
  congruence.
Qed.

(** *** Splitting a column name *)

Lemma split_digits (s : string) : all_chars is_digit s = true -> split "-" s = [s].
Proof.
  induction s as [|c s IH]; [reflexivity|]. cbn [all_chars split].
  intros H. apply andb_true_iff in H as [Hc Hs]. rewrite (IH Hs).
  destruct (Ascii.eqb c "-") eqn:He; [|reflexivity].
  apply Ascii.eqb_eq in He. subst c. discriminate Hc.
Qed.

Lemma column_number_h1 (i : nat) : column_number ("H1-" ++ str_of_nat i) = Ok i.
Proof.
  unfold column_number.
  change (split "-" ("H1-" ++ str_of_nat i)) with ("H1" :: split "-" (str_of_nat i)).
  rewrite (split_digits _ (str_of_nat_digits i)). apply int_of_str_of_nat.
Qed.

Lemma column_number_h2 (i : nat) : column_number ("H2-" ++ str_of_nat i) = Ok i.
Proof.
  unfold column_number.
  change (split "-" ("H2-" ++ str_of_nat i)) with ("H2" :: split "-" (str_of_nat i)).
  rewrite (split_digits _ (str_of_nat_digits i)). apply int_of_str_of_nat.
Qed.

(** *** Sorting by key *)

Lemma insert_by_perm {A : Type} (k : nat) (x : A) (l : list (nat * A)) :
  insert_by k x l ≡ₚ (k, x) :: l.
Proof.
  induction l as [|[k' y] l IH]; [reflexivity|]. cbn [insert_by].
  destruct (k <=? k')%nat; [reflexivity|]. rewrite IH. apply Permutation_swap.
Qed.

Lemma sort_keyed_perm {A : Type} (l : list (nat * A)) : sort_keyed l ≡ₚ l.
Proof.
  induction l as [|[k x] l IH]; [reflexivity|].
  cbn [sort_keyed fold_right fst snd]. fold (sort_keyed l).
  now rewrite insert_by_perm, IH.
Qed.

Lemma insert_by_sorted {A : Type} (k : nat) (x : A) (l : list (nat * A)) :
  StronglySorted le (map fst l) -> StronglySorted le (map fst (insert_by k x l)).
Proof.
  induction l as [|[k' y] l IH]; intros Hs; cbn [insert_by map fst].
  - repeat constructor.
  - destruct (k <=? k')%nat eqn:Hk.
    + apply Nat.leb_le in Hk. cbn [map fst]. constructor; [exact Hs|].
      cbn [map fst] in Hs. apply StronglySorted_inv in Hs as [_ Hall].
      constructor; [exact Hk|]. eapply Forall_impl; [exact Hall|]. intros; lia.
    + apply Nat.leb_gt in Hk. cbn [map fst] in *.
      apply StronglySorted_inv in Hs as [Hs Hall].
      constructor; [now apply IH|].
      rewrite (Permutation_map fst (insert_by_perm k x l)). cbn [map fst].
      constructor; [lia|exact Hall].
Qed.

Lemma sort_keyed_sorted {A : Type} (l : list (nat * A)) :
  StronglySorted le (map fst (sort_keyed l)).
Proof.
  induction l as [|[k x] l IH]; [constructor|].
  cbn [sort_keyed fold_right fst snd]. fold (sort_keyed l). now apply insert_by_sorted.
Qed.

Lemma seq_sorted (start n : nat) : StronglySorted le (seq start n).
Proof.
  revert start. induction n as [|n IH]; intros start; [constructor|].
  cbn [seq]. constructor; [apply IH|].
  apply Forall_forall. intros x Hx. apply list_elem_of_In, in_seq in Hx. lia.
Qed.

Section Sorted.

Context {A : Type}.
Variable keyf : A -> result nat.
Variable mk : nat -> A.
Hypothesis key_mk : forall i, keyf (mk i) = Ok i.

Lemma map_result_keys (l : list A) :
  Forall (fun x => exists i, x = mk i) l ->
  exists keyed,
    map_result (fun x => try! k := keyf x in Ok (k, x)) l = Ok keyed
    /\ map snd keyed = l
    /\ Forall (fun kx => snd kx = mk (fst kx)) keyed.
Proof.
  induction 1 as [|x l [i ->] _ [keyed [Hk [Hs Hf]]]].
  - exists []. repeat split; constructor.
  - exists ((i, mk i) :: keyed). cbn [map_result]. rewrite key_mk. cbn [bind].
    rewrite Hk. cbn [bind map snd]. rewrite Hs.
    repeat split. now constructor.
Qed.

(** Sorting, by their numbers, names that are the names of a range of
    numbers in any order gives the names in the order of the range. *)
Lemma sorted_range (l : list A) (start n : nat) :
  l ≡ₚ map mk (seq start n) -> sorted keyf l = Ok (map mk (seq start n)).
Proof.
  intros Hperm.
  assert (Hall : Forall (fun x => exists i, x = mk i) l).
  { apply Forall_forall. intros x Hx. rewrite Hperm in Hx.
    apply list_elem_of_fmap in Hx as [i [-> _]]. now exists i. }
  destruct (map_result_keys l Hall) as [keyed [Hk [Hs Hf]]].
  unfold sorted. rewrite Hk. cbn [bind]. f_equal.
  set (inv := fun x => match keyf x with Ok i => i | Raise _ => O end).
  assert (Hinv : forall i, inv (mk i) = i) by (intros i; unfold inv; now rewrite key_mk).
  assert (Hfst : forall kxs : list (nat * A),
            Forall (fun kx => snd kx = mk (fst kx)) kxs ->
            map fst kxs = map inv (map snd kxs) /\ map snd kxs = map mk (map fst kxs)).
  { induction 1 as [|[k x] kxs Hkx _ [IH1 IH2]]; [now split|].
    cbn [map fst snd] in *. subst x. rewrite Hinv. now rewrite <- IH1, <- IH2. }
  assert (Hsf : Forall (fun kx => snd kx = mk (fst kx)) (sort_keyed keyed)).
  { eapply Permutation_Forall; [symmetry; apply sort_keyed_perm|exact Hf]. }
  destruct (Hfst _ Hsf) as [_ ->]. f_equal.
  apply (StronglySorted_unique le); [apply sort_keyed_sorted|apply seq_sorted|].
  rewrite (Permutation_map fst (sort_keyed_perm keyed)).
  destruct (Hfst _ Hf) as [-> _]. rewrite Hs, Hperm.
  rewrite map_map. erewrite map_ext; [now rewrite map_id|]. exact Hinv.
Qed.

End Sorted.

(** *** The headings of a page in its dictionary *)

Lemma append_inj_r (t a b : string) : (t ++ a)%string = (t ++ b)%string -> a = b.
Proof.
  induction t as [|c t IH]; [trivial|]. rewrite !append_cons. intros [= H]. now apply IH.
Qed.

Section Headings.

Variable tag : string.

Abbreviation key := (fun i : nat => (tag ++ str_of_nat i)%string).
Abbreviation put := (fun (d : gmap string Cell) (ih : nat * string) =>
                       <[(tag ++ str_of_nat (fst ih))%string := CStr (snd ih)]> d).

Lemma key_inj (i j : nat) : key i = key j -> i = j.
Proof. intros H. now apply str_of_nat_inj, (append_inj_r tag). Qed.

Lemma put_other (l : list string) :
  forall (start : nat) (d : gmap string Cell) (k : string),
    (forall i, (start <= i < start + length l)%nat -> k <> key i) ->
    fold_left put (enumerate start l) d !! k = d !! k.
Proof.
  induction l as [|x l IH]; intros start d k Hk; [reflexivity|].
  cbn [enumerate fold_left fst snd]. rewrite IH.
  - apply lookup_insert_ne. intros H. apply (Hk start); [cbn [length]; lia|now symmetry].
  - intros i Hi. apply Hk. cbn [length]. lia.
Qed.

Lemma put_at (l : list string) :
  forall (start : nat) (d : gmap string Cell) (j : nat) (x : string),
    l !! j = Some x ->
    fold_left put (enumerate start l) d !! key (start + j) = Some (CStr x).
Proof.
  induction l as [|y l IH]; intros start d j x Hj; [discriminate|].
  cbn [enumerate fold_left fst snd]. destruct j as [|j].
  - injection Hj as ->. rewrite Nat.add_0_r. rewrite put_other.
    + apply lookup_insert_eq.
    + intros i Hi Heq. apply key_inj in Heq. lia.
  - replace (start + S j)%nat with (S start + j)%nat by lia. now apply IH.
Qed.

Lemma put_dom (l : list string) :
  forall (start : nat) (d : gmap string Cell),
    dom (fold_left put (enumerate start l) d)
    = dom d ∪ list_to_set (map key (seq start (length l))).
Proof.
  induction l as [|y l IH]; intros start d.
  - cbn [enumerate fold_left length seq map list_to_set]. set_solver.
  - cbn [enumerate fold_left fst snd length seq map list_to_set].
    rewrite IH, dom_insert_L. set_solver.
Qed.

End Headings.

Lemma h1_not_h2 (i j : nat) : ("H1-" ++ str_of_nat i)%string <> ("H2-" ++ str_of_nat j)%string.
Proof. discriminate. Qed.

Lemma base_not_heading (k s : string) (c : ascii) :
  In k base_columns -> k <> String "H" (String c (String "-" s)).
Proof. intros [<-|[<-|[<-|[<-|[]]]]]; discriminate. Qed.

(** The keys of the dictionary of a page are the four base columns and one
    column for each of its headings. *)
Lemma to_dict_dom (p : PageData) :
  dom (to_dict p)
  = list_to_set (base_columns ++ heading_columns "H1" (length (h1_tags p))
                 ++ heading_columns "H2" (length (h2_tags p))).
Proof.
  unfold to_dict. rewrite (put_dom "H2-"), (put_dom "H1-"), !dom_insert_L, dom_empty_L.
  rewrite !list_to_set_app_L. unfold heading_columns, base_columns.
  cbn [list_to_set]. set_solver.
Qed.

Lemma to_dict_fields (p : PageData) :
  to_dict p !! "Status Code" = Some (CInt (status_code p))
  /\ to_dict p !! "URL" = Some (CStr (url p))
  /\ to_dict p !! "Title" = Some (CStr (title p))
  /\ to_dict p !! "Meta Description" = Some (CStr (meta_description p))
  /\ (forall i, to_dict p !! ("H1-" ++ str_of_nat (S i))%string
                = CStr <$> h1_tags p !! i)
  /\ (forall i, to_dict p !! ("H2-" ++ str_of_nat (S i))%string
                = CStr <$> h2_tags p !! i).
Proof.
  assert (Hbase : forall k, In k base_columns ->
            to_dict p !! k
            = (<["Meta Description" := CStr (meta_description p)]>
                (<["Title" := CStr (title p)]>
                  (<["URL" := CStr (url p)]>
                    (<["Status Code" := CInt (status_code p)]>
                      (∅ : gmap string Cell))))) !! k).
  { intros k Hk. unfold to_dict. rewrite (put_other "H2-"), (put_other "H1-");
      [reflexivity| |]; intros i _; now apply base_not_heading. }
  assert (Hnone : forall (tag k : string) (l : list string) (i : nat),
            (length l <= i)%nat ->
            ~ (tag ++ str_of_nat (S i))%string
              ∈ map (fun j => (tag ++ str_of_nat j)%string) (seq 1 (length l))).
  { intros tag k l i Hi Hin. apply list_elem_of_fmap in Hin as [j [Hj Hin]].
    apply key_inj in Hj. subst j. apply list_elem_of_In, in_seq in Hin. lia. }
  split; [rewrite Hbase by (cbn; auto); now simplify_map_eq|].
  split; [rewrite Hbase by (cbn; auto); now simplify_map_eq|].
  split; [rewrite Hbase by (cbn; auto); now simplify_map_eq|].
  split; [rewrite Hbase by (cbn; auto); now simplify_map_eq|].
  split.
  - intros i. unfold to_dict. rewrite (put_other "H2-") by (intros j _; apply h1_not_h2).
    destruct (h1_tags p !! i) as [x|] eqn:Hx.
    + now apply (put_at "H1-" _ 1).
    + apply lookup_ge_None in Hx. cbn [fmap option_fmap option_map].
      rewrite (put_other "H1-").
      * now simplify_map_eq.
      * intros j Hj Heq. apply key_inj in Heq. lia.
  - intros i. unfold to_dict.
    destruct (h2_tags p !! i) as [x|] eqn:Hx.
    + now apply (put_at "H2-" _ 1).
    + apply lookup_ge_None in Hx. cbn [fmap option_fmap option_map].
      rewrite (put_other "H2-").
      * rewrite (put_other "H1-") by (intros j _ Heq; symmetry in Heq;
                                      now apply h1_not_h2 in Heq).
        now simplify_map_eq.
      * intros j Hj Heq. apply key_inj in Heq. lia.
Qed.

Lemma to_dict_size (p : PageData) :
  size (to_dict p) = (4 + length (h1_tags p) + length (h2_tags p))%nat.
Proof.
  rewrite <- size_dom, to_dict_dom. rewrite size_list_to_set.
    + rewrite !length_app. unfold heading_columns. now rewrite !length_map, !length_seq.
    + apply NoDup_app. split; [|split].
      * unfold base_columns. repeat constructor; set_solver.
      * intros k Hk Hin. apply list_elem_of_In in Hk.
        apply elem_of_app in Hin as [Hin|Hin];
          apply list_elem_of_fmap in Hin as [j [-> _]];
          [exact (base_not_heading _ (str_of_nat j) "1" Hk eq_refl)
          |exact (base_not_heading _ (str_of_nat j) "2" Hk eq_refl)].
      * apply NoDup_app. split; [|split].
        -- apply NoDup_fmap_2_strong; [|apply NoDup_seq].
           intros i j _ _. apply (key_inj "H1-").
        -- intros k Hk Hin. apply list_elem_of_fmap in Hk as [i [-> _]].
           apply list_elem_of_fmap in Hin as [j [Hj _]]. now apply h1_not_h2 in Hj.
        -- apply NoDup_fmap_2_strong; [|apply NoDup_seq].
           intros i j _ _. apply (key_inj "H2-").
Qed.

(** [to_dict] keeps every field of the page: the four base columns hold
    the status code, the URL, the title and the description, the column
    "H1-i" (from 1) holds the i-th h1 heading, likewise for h2, and there is
    no other column. *)
Theorem to_dict_lookup (p : PageData) :
  to_dict p !! "Status Code" = Some (CInt (status_code p))
  /\ to_dict p !! "URL" = Some (CStr (url p))
  /\ to_dict p !! "Title" = Some (CStr (title p))
  /\ to_dict p !! "Meta Description" = Some (CStr (meta_description p))
  /\ (forall i, to_dict p !! ("H1-" ++ str_of_nat (S i))%string
                = CStr <$> h1_tags p !! i)
  /\ (forall i, to_dict p !! ("H2-" ++ str_of_nat (S i))%string
                = CStr <$> h2_tags p !! i)
  /\ size (to_dict p) = (4 + length (h1_tags p) + length (h2_tags p))%nat.
Proof.
  destruct (to_dict_fields p) as [H1 [H2 [H3 [H4 [H5 H6]]]]].
  repeat (split; [assumption|]). apply to_dict_size.
Qed.

(** *** The columns of the file *)

Lemma all_keys_elem (rows : list (gmap string Cell)) :
  forall (acc : gset string) (k : string),
    k ∈ fold_left (fun acc row => acc ∪ dom row) rows acc
    <-> k ∈ acc \/ exists row, row ∈ rows /\ k ∈ dom row.
Proof.
  induction rows as [|row rows IH]; intros acc k; cbn [fold_left].
  - split; [now left|]. intros [H|[row [Hr _]]]; [exact H|]. now apply elem_of_nil in Hr.
  - rewrite IH. split.
    + intros [H|[r [Hr Hk]]].
      * apply elem_of_union in H as [H|H]; [now left|].
        right. exists row. split; [left|exact H].
      * right. exists r. split; [now right|exact Hk].
    + intros [H|[r [Hr Hk]]]; [left; set_solver|].
      apply elem_of_cons in Hr as [->|Hr]; [left; set_solver|].
      right. now exists r.
Qed.

Lemma max_list_reach (ns : list nat) (i : nat) :
  1 <= i <= max_list ns -> exists n, n ∈ ns /\ i <= n.
Proof.
  induction ns as [|n ns IH]; cbn [max_list max_list_with]; [lia|].
  intros Hi. change (id n) with n in Hi. destruct (Nat.le_gt_cases i n) as [Hn|Hn].
  - exists n. split; [left|exact Hn].
  - destruct IH as [m [Hm Hle]]; [lia|].
    exists m. split; [now right|exact Hle].
Qed.

Section Columns.

Variable iter : gset string -> list string.
Hypothesis iter_ok : forall s : gset string, iter s ≡ₚ elements s.

Variable results : list PageData.

Abbreviation all_keys :=
  (fold_left (fun (acc : gset string) (row : gmap string Cell) => acc ∪ dom row)
             (map to_dict results) ∅).

Lemma all_keys_spec (k : string) :
  k ∈ all_keys <->
  exists p, p ∈ results /\
    k ∈ (base_columns ++ heading_columns "H1" (length (h1_tags p))
         ++ heading_columns "H2" (length (h2_tags p)))%list.
Proof.
  rewrite all_keys_elem. split.
  - intros [H|[row [Hr Hk]]]; [set_solver|].
    apply list_elem_of_fmap in Hr as [p [-> Hp]]. exists p. split; [exact Hp|].
    rewrite to_dict_dom in Hk. now apply elem_of_list_to_set in Hk.
  - intros [p [Hp Hk]]. right. exists (to_dict p).
    split; [now apply list_elem_of_fmap_2|].
    rewrite to_dict_dom. now apply elem_of_list_to_set.
Qed.

Lemma heading_columns_elem (tag k : string) (n : nat) :
  k ∈ heading_columns tag n <-> exists i, 1 <= i <= n /\ k = (tag ++ "-" ++ str_of_nat i)%string.
Proof.
  unfold heading_columns. rewrite list_elem_of_fmap. split.
  - intros [i [-> Hi]]. exists i. apply list_elem_of_In, in_seq in Hi. split; [lia|reflexivity].
  - intros [i [Hi ->]]. exists i. split; [reflexivity|]. apply list_elem_of_In, in_seq. lia.
Qed.

Lemma heading_columns_NoDup (tag : string) (n : nat) : NoDup (heading_columns tag n).
Proof.
  apply NoDup_fmap_2_strong; [|apply NoDup_seq].
  intros i j _ _ H. apply (append_inj_r tag), (append_inj_r "-") in H.
  now apply str_of_nat_inj.
Qed.

Lemma h1_columns_found :
  filter (fun k => String.prefix "H1-" k = true) (iter all_keys)
  ≡ₚ heading_columns "H1" (max_h1 results).
Proof.
  apply NoDup_Permutation.
  - apply NoDup_filter. rewrite iter_ok. apply NoDup_elements.
  - apply heading_columns_NoDup.
  - intros k. rewrite list_elem_of_filter, iter_ok, elem_of_elements, all_keys_spec.
    rewrite heading_columns_elem. split.
    + intros [Hpre [p [Hp Hk]]].
      apply elem_of_app in Hk as [Hk|Hk]; [|apply elem_of_app in Hk as [Hk|Hk]].
      * exfalso. apply list_elem_of_In in Hk.
        destruct Hk as [<-|[<-|[<-|[<-|[]]]]]; discriminate Hpre.
      * apply heading_columns_elem in Hk as [i [Hi ->]]. exists i. split; [|reflexivity].
        assert (length (h1_tags p) <= max_h1 results); [|lia].
        apply max_list_elem_of_le. now apply (list_elem_of_fmap_2 (fun p => length (h1_tags p))).
      * exfalso. apply heading_columns_elem in Hk as [i [_ ->]]. discriminate Hpre.
    + intros [i [Hi ->]]. split; [apply (prefix_app_true "H1-")|].
      destruct (max_list_reach _ i Hi) as [n [Hn Hle]].
      apply list_elem_of_fmap in Hn as [p [-> Hp]]. exists p. split; [exact Hp|].
      apply elem_of_app. right. apply elem_of_app. left.
      apply heading_columns_elem. exists i. split; [lia|reflexivity].
Qed.

Lemma h2_columns_found :
  filter (fun k => String.prefix "H2-" k = true) (iter all_keys)
  ≡ₚ heading_columns "H2" (max_h2 results).
Proof.
  apply NoDup_Permutation.
  - apply NoDup_filter. rewrite iter_ok. apply NoDup_elements.
  - apply heading_columns_NoDup.
  - intros k. rewrite list_elem_of_filter, iter_ok, elem_of_elements, all_keys_spec.
    rewrite heading_columns_elem. split.
    + intros [Hpre [p [Hp Hk]]].
      apply elem_of_app in Hk as [Hk|Hk]; [|apply elem_of_app in Hk as [Hk|Hk]].
      * exfalso. apply list_elem_of_In in Hk.
        destruct Hk as [<-|[<-|[<-|[<-|[]]]]]; discriminate Hpre.
      * exfalso. apply heading_columns_elem in Hk as [i [_ ->]]. discriminate Hpre.
      * apply heading_columns_elem in Hk as [i [Hi ->]]. exists i. split; [|reflexivity].
        assert (length (h2_tags p) <= max_h2 results); [|lia].
        apply max_list_elem_of_le. now apply (list_elem_of_fmap_2 (fun p => length (h2_tags p))).
    + intros [i [Hi ->]]. split; [apply (prefix_app_true "H2-")|].
      destruct (max_list_reach _ i Hi) as [n [Hn Hle]].
      apply list_elem_of_fmap in Hn as [p [-> Hp]]. exists p. split; [exact Hp|].
      apply elem_of_app. right. apply elem_of_app. right.
      apply heading_columns_elem. exists i. split; [lia|reflexivity].
Qed.

(** The header: the base columns, then "H1-1" to "H1-m" and "H2-1" to
    "H2-n" in numerical order, [m] and [n] being the largest numbers of
    headings of a page. *)
Lemma fieldnames_of_results :
  fieldnames_of iter (map to_dict results)
  = Ok (base_columns ++ heading_columns "H1" (max_h1 results)
        ++ heading_columns "H2" (max_h2 results))%list.
Proof.
  unfold fieldnames_of.
  rewrite (sorted_range column_number (fun i => ("H1-" ++ str_of_nat i)%string)
             column_number_h1 _ 1 (max_h1 results) h1_columns_found).
  cbn [bind].
  rewrite (sorted_range column_number (fun i => ("H2-" ++ str_of_nat i)%string)
             column_number_h2 _ 1 (max_h2 results) h2_columns_found).
  reflexivity.
Qed.

(** The cells under the heading columns: the headings, then empty
    strings up to the number of columns. *)
Lemma pad_lookup (l : list string) :
  forall start n, length l <= n ->
    map (fun i => default (CStr "") (CStr <$> l !! (i - start))) (seq start n)
    = padded l n.
Proof.
  unfold padded. induction l as [|x l IH]; intros start n Hn.
  - cbn [map length app]. rewrite Nat.sub_0_r.
    rewrite (map_ext _ (fun _ => CStr "")) by reflexivity.
    now rewrite map_const, length_seq.
  - destruct n as [|n]; [cbn [length] in Hn; lia|].
    cbn [seq map length app]. rewrite Nat.sub_diag. cbn. f_equal.
    rewrite <- (IH (S start) n) by (cbn [length] in Hn; lia).
    apply map_ext_in. intros i Hi. apply in_seq in Hi.
    replace (i - start) with (S (i - S start)) by lia. reflexivity.
Qed.

Lemma row_cells_page (p : PageData) (m n : nat) :
  length (h1_tags p) <= m -> length (h2_tags p) <= n ->
  row_cells (base_columns ++ heading_columns "H1" m ++ heading_columns "H2" n)
            (to_dict p)
  = ([CInt (status_code p); CStr (url p); CStr (title p); CStr (meta_description p)]
     ++ padded (h1_tags p) m ++ padded (h2_tags p) n)%list.
Proof.
  intros Hm Hn. destruct (to_dict_fields p) as [H1 [H2 [H3 [H4 [H5 H6]]]]].
  unfold row_cells. rewrite !map_app. f_equal; [|f_equal].
  - cbn [base_columns map]. now rewrite H1, H2, H3, H4.
  - unfold heading_columns. rewrite map_map, <- (pad_lookup _ 1 m Hm).
    apply map_ext_in. intros i Hi. apply in_seq in Hi.
    destruct i as [|i]; [lia|].
    change ("H1" ++ "-" ++ str_of_nat (S i))%string with ("H1-" ++ str_of_nat (S i))%string.
    rewrite H5. now replace (S i - 1) with i by lia.
  - unfold heading_columns. rewrite map_map, <- (pad_lookup _ 1 n Hn).
    apply map_ext_in. intros i Hi. apply in_seq in Hi.
    destruct i as [|i]; [lia|].
    change ("H2" ++ "-" ++ str_of_nat (S i))%string with ("H2-" ++ str_of_nat (S i))%string.
    rewrite H6. now replace (S i - 1) with i by lia.
Qed.

(** What [export_to_csv] writes for a non-empty list of results, whatever
    the order in which Python iterates the set of keys: the header is the
    four base columns followed by "H1-1" ... "H1-m" and "H2-1" ... "H2-n"
    in numerical order, where [m] and [n] are the largest numbers of h1 and
    h2 headings of a page; each result gives one line, with its headings
    under their columns and empty strings under the columns it has no
    heading for.  No exception is raised on the way. *)
Theorem export_to_csv_table :
  results <> [] ->
  export_to_csv iter results
  = Ok (Some
      ((base_columns ++ heading_columns "H1" (max_h1 results)
        ++ heading_columns "H2" (max_h2 results))%list,
       map (fun p =>
              ([CInt (status_code p); CStr (url p); CStr (title p);
                CStr (meta_description p)]
               ++ padded (h1_tags p) (max_h1 results)
               ++ padded (h2_tags p) (max_h2 results))%list)
           results)).
Proof.
  intros Hne. unfold export_to_csv.
  destruct results as [|p0 rest] eqn:Hres; [contradiction|]. rewrite <- Hres.
  rewrite fieldnames_of_results. cbn [bind]. do 3 f_equal.
  rewrite map_map. apply map_ext_in. intros p Hp. apply list_elem_of_In in Hp.
  apply row_cells_page; apply max_list_elem_of_le.
  - now apply (list_elem_of_fmap_2 (fun p => length (h1_tags p))).
  - now apply (list_elem_of_fmap_2 (fun p => length (h2_tags p))).
Qed.

End Columns.

(** Nothing is written for an empty list of results. *)
Lemma export_to_csv_nothing (iter : gset string -> list string) :
  export_to_csv iter [] = Ok None.
Proof. reflexivity. Qed.

End ExportFacts.

(* ===================================================================== *)
(** ** The table on the console and the name of the output file *)
(* ===================================================================== *)

Module DisplayFacts.
Import Text Fetch CsvExport Display TextFacts TextMore.

Local Open Scope nat_scope.

Lemma length_take (n : nat) (s : string) : String.length (take n s) <= n.
Proof.
  revert s. induction n as [|n IH]; intros [|c s]; cbn [take String.length]; try lia.
  specialize (IH s). lia.
Qed.

Lemma length_append (s t : string) :
  String.length (s ++ t) = String.length s + String.length t.
Proof.
  induction s as [|c s IH]; [reflexivity|]. rewrite append_cons. cbn [String.length]. lia.
Qed.

(** A cell that was cut keeps its first [n] characters and has three dots
    added; a text of at most [n] characters is shown whole. *)
Lemma shorten_spec (n : nat) (s : string) :
  String.length (shorten n s) <= n + 3
  /\ (String.length s <= n -> shorten n s = s)
  /\ (n < String.length s -> shorten n s = (take n s ++ "...")%string).
Proof.
  unfold shorten. destruct (n <? String.length s) eqn:H.
  - apply Nat.ltb_lt in H. split; [|split; [lia|reflexivity]].
    rewrite length_append. pose proof (length_take n s). cbn [String.length]. lia.
  - apply Nat.ltb_ge in H. split; [lia|]. split; [reflexivity|lia].
Qed.

(** The table never has more than 21 rows: the first 20 results, each
    with its URL within 63 characters and its title within 43, and one more
    row when results were left out. *)
Theorem table_rows_bounded (results : list PageData) :
  length (table_rows results) <= 21
  /\ length (table_rows results)
     = Nat.min 20 (length results) + (if 20 <? length results then 1 else 0)
  /\ Forall (fun row => String.length (snd (fst row)) <= 63
                        /\ String.length (snd row) <= 43)
            (firstn 20 (table_rows results)).
Proof.
  unfold table_rows.
  assert (Hlen : length (map page_row (firstn 20 results)) = Nat.min 20 (length results)).
  { now rewrite length_map, length_firstn. }
  assert (Hrows : Forall (fun row => String.length (snd (fst row)) <= 63
                                     /\ String.length (snd row) <= 43)
                         (map page_row (firstn 20 results))).
  { apply Forall_map, Forall_forall. intros page _. unfold page_row. cbn [fst snd].
    split; [apply (shorten_spec 60)|apply (shorten_spec 40)]. }
  split; [|split].
  - rewrite length_app, Hlen. destruct (20 <? length results); cbn [length]; lia.
  - rewrite length_app, Hlen. now destruct (20 <? length results).
  - destruct (20 <? length results) eqn:H.
    + apply Nat.ltb_lt in H. rewrite firstn_app, firstn_all2 by lia.
      rewrite Hlen. replace (20 - Nat.min 20 (length results)) with 0 by lia.
      cbn [firstn]. now rewrite app_nil_r.
    + rewrite app_nil_r. rewrite firstn_all2 by lia. exact Hrows.
Qed.

Section FileNameFacts.

Variable unicode_word : ascii -> bool.

Lemma sub_unkept_chars (s : string) :
  all_chars (fun c => kept_char unicode_word c || Ascii.eqb c "_") (sub_unkept unicode_word s)
  = true.
Proof.
  induction s as [|c s IH]; [reflexivity|]. cbn [sub_unkept all_chars]. rewrite IH.
  destruct (kept_char unicode_word c) eqn:Hc; [now rewrite Hc|reflexivity].
Qed.

Lemma kept_char_ascii (c : ascii) :
  nat_of_ascii c < 128 ->
  kept_char unicode_word c || Ascii.eqb c "_"
  = char_in c "abcdefghijklmnopqrstuvwxyzABCDEFGHIJKLMNOPQRSTUVWXYZ0123456789_-".
Proof.
  destruct c as [[] [] [] [] [] [] [] []]; intros H; try reflexivity;
    vm_compute in H; lia.
Qed.

Lemma all_chars_app (p : ascii -> bool) (s t : string) :
  all_chars p (s ++ t) = all_chars p s && all_chars p t.
Proof.
  induction s as [|c s IH]; [reflexivity|].
  rewrite append_cons. cbn [all_chars]. now rewrite IH, andb_assoc.
Qed.

Lemma str_in_char_absent (c : ascii) (s : string) :
  all_chars (fun d => negb (Ascii.eqb d c)) s = true ->
  str_in (String c EmptyString) s = false.
Proof.
  induction s as [|d s IH]; [reflexivity|]. cbn [all_chars str_in String.prefix].
  intros H. apply andb_true_iff in H as [Hd Hs]. rewrite (IH Hs), orb_false_r.
  destruct (ascii_dec c d) as [->|]; [|reflexivity].
  now rewrite Ascii.eqb_refl in Hd.
Qed.

Lemma all_chars_impl (p q : ascii -> bool) (s : string) :
  (forall c, p c = true -> q c = true) -> all_chars p s = true -> all_chars q s = true.
Proof.
  intros Hpq. induction s as [|c s IH]; [reflexivity|]. cbn [all_chars].
  intros H. apply andb_true_iff in H as [Hc Hs]. now rewrite (Hpq c Hc), IH.
Qed.

Lemma sub_unkept_length (s : string) :
  String.length (sub_unkept unicode_word s) = String.length s.
Proof. induction s as [|c s IH]; [reflexivity|]. cbn [sub_unkept String.length]. now rewrite IH. Qed.

(** Removing the occurrences of a text does not make a string longer. *)
Lemma replace_from_length (old s : string) :
  forall skip, String.length (replace_from old "" skip s) <= String.length s.
Proof.
  induction s as [|c s IH]; intros skip; [reflexivity|].
  cbn [replace_from String.length]. destruct skip as [|k].
  - destruct (String.prefix old (String c s)).
    + rewrite append_nil_l. specialize (IH (String.length old - 1)). lia.
    + cbn [String.length]. specialize (IH 0). lia.
  - specialize (IH k). lia.
Qed.

(** The default output file is named by word characters, "-" and "_" in
    front of "_crawl.csv"; the name has no "/", no backslash and no ":",
    so the file is created in the working directory. *)
Theorem default_output_is_plain_name (domain : string) :
  exists safe_domain,
    default_output unicode_word domain = (safe_domain ++ "_crawl.csv")%string
    /\ String.length safe_domain <= String.length domain
    /\ all_chars (fun c => kept_char unicode_word c || Ascii.eqb c "_") safe_domain = true
    /\ str_in "/" (default_output unicode_word domain) = false
    /\ str_in "\" (default_output unicode_word domain) = false
    /\ str_in ":" (default_output unicode_word domain) = false.
Proof.
  unfold default_output. eexists. split; [reflexivity|].
  pose proof (sub_unkept_chars (replace "http://" "" (replace "https://" "" domain))) as Hk.
  split; [|split; [exact Hk|]].
  2:{ assert (Hsep : forall c, (c = "/" \/ c = "\" \/ c = ":")%char ->
                all_chars (fun d => negb (Ascii.eqb d c))
                  (sub_unkept unicode_word (replace "http://" "" (replace "https://" "" domain))
                   ++ "_crawl.csv") = true).
      { intros c Hc. rewrite all_chars_app. apply andb_true_iff. split.
        - eapply all_chars_impl; [|exact Hk]. intros d Hd.
          destruct (Ascii.eqb d c) eqn:He; [|reflexivity].
          apply Ascii.eqb_eq in He. subst d.
          destruct Hc as [-> | [-> | ->]]; discriminate Hd.
        - destruct Hc as [-> | [-> | ->]]; reflexivity. }
      repeat split; apply str_in_char_absent, Hsep; auto. }
  rewrite sub_unkept_length. unfold replace.
  etransitivity; [apply replace_from_length|apply replace_from_length].
Qed.

End FileNameFacts.
End DisplayFacts.

(* ===================================================================== *)
(** ** The theorems with hypotheses, at work on concrete inputs *)
(* ===================================================================== *)

Module Instances.
Import Text UrlParse Url Fetch Engine Sites CsvExport Provenance.

Abbreviation hub := (site_env hub_site).
Abbreviation hub_ok := (EngineFacts.site_env_ok hub_site).
Abbreviation seed := "https://site.com"%string.
Abbreviation hub_state := (run hub seed 2 2 12 (init seed)).

Lemma normalize_url_ignores_case_and_slashes_witness :
  normalize_url ("HTTP://Site.com/Blog" ++ slashes 2) = normalize_url "http://site.COM/blog".
Proof. apply UrlMore.normalize_url_ignores_case_and_slashes. reflexivity. Defined.


Lemma excluded_word_in_host_witness :
  is_valid_link "https://capital.com/about" "https://capital.com" <> Ok true.
Proof.
  apply (UrlMore.excluded_word_in_host _ _ "api" (mkSplit "https" "capital.com"));
    [reflexivity | reflexivity | cbn; tauto | reflexivity].
Defined.

Lemma pages_crawled_bound_witness :
  pages_crawled (stats hub_state) < 2 + 2.
Proof.
  apply (EngineFacts.pages_crawled_bound hub hub_ok seed 2 2 seed 12); lia.
Defined.

Lemma no_batch_once_budget_reached_witness :
  let s := hub_state in
  (2 <= pages_crawled (stats s) -> point s = LoopTest ->
     point (step hub seed 2 2 s) = Returned)
  /\ (forall batch, point s = Drawing batch -> pages_crawled (stats s) < 2)
  /\ (fetched (step hub seed 2 2 s) <> fetched s -> pages_crawled (stats s) < 2).
Proof.
  exact (EngineFacts.no_batch_once_budget_reached hub hub_ok seed 2 2 seed 12).
Defined.

Lemma requests_bounded_witness :
  Z.of_nat (length (fetched hub_state)) <= Z.max 1 (2 * 2).
Proof. exact (CrawlFacts.requests_bounded hub hub_ok seed 2 2 seed 12). Defined.

Lemma crawl_stays_on_domain_witness :
  Forall (fun u => u = seed
                   \/ (is_valid_link u seed = Ok true
                       /\ get_domain u = Ok seed
                       /\ str_in "?" u = false /\ str_in "#" u = false))
         (map fst (fetched hub_state)).
Proof. exact (CrawlFacts.crawl_stays_on_domain hub hub_ok seed 2 2 seed 12). Defined.

Lemma results_distinct_witness :
  NoDup (map url (results hub_state))
  /\ Forall (fun p => url p ∈ visited hub_state) (results hub_state).
Proof. exact (CrawlFacts.results_distinct hub hub_ok seed 2 2 seed 12). Defined.

Lemma total_links_counted_witness :
  total_links_found (stats hub_state) + links_in (pending (point hub_state))
    = links_in (map snd (fetched hub_state))
  /\ match crawl_loop hub seed 2 2 12 seed with
     | Some (_, final) => total_links_found final = links_in (map snd (fetched hub_state))
     | None => True
     end.
Proof. exact (CrawlFacts.total_links_counted hub hub_ok seed 2 2 seed 12). Defined.



Lemma seed_fetched_first_witness :
  exists now rest,
    fetched hub_state = (seed, fetch_page hub now seed seed) :: rest.
Proof.
  apply (CrawlFacts.seed_fetched_first hub hub_ok seed 2 2 seed 12); lia.
Defined.

Lemma crawl_exits_without_budget_witness :
  fetched (run hub seed 0 5 2 (init (sanitize_url "Site.com/"))) = []
  /\ crawl_site hub 2 (sanitize_url "Site.com/") 0 5
     = Some (Ok ([], {| pages_crawled := 0; pages_failed := 0;
                        pages_filtered := 0; total_links_found := 0 |}))
  /\ crawl hub 2 "Site.com/" 0 5 = Some (Ok (Exit 1)).
Proof.
  apply (CrawlFacts.crawl_exits_without_budget hub 2 "Site.com/" seed 0 5);
    [reflexivity | left; lia | lia].
Defined.

Lemma export_to_csv_table_witness :
  let results := [mkPageData seed 200 "Home" "" ["Welcome"; "News"] []] in
  export_to_csv elements results
  = Ok (Some
      ((base_columns ++ heading_columns "H1" (max_h1 results)
        ++ heading_columns "H2" (max_h2 results))%list,
       map (fun p =>
              ([CInt (status_code p); CStr (url p); CStr (title p);
                CStr (meta_description p)]
               ++ padded (h1_tags p) (max_h1 results)
               ++ padded (h2_tags p) (max_h2 results))%list)
           results)).
Proof.
  apply (ExportFacts.export_to_csv_table elements (fun s => reflexivity (elements s))).
  discriminate.
Defined.

End Instances.
